(** * offer-hub backend: projects and contracts over a relational store

    A shallow embedding of
      - [backend/src/types/project.types.ts]
      - [backend/src/services/project.service.ts]
      - the project controller (the handlers of update and delete)
      - [backend/src/controllers/contract.controller.ts] (the handlers of
        create and of the status update)
    and the properties of the status machine, of the validation and of the
    error mapping that the specification states about them.

    Conventions of the embedding.
      - A JavaScript string is a [string]: the sequence of its code units,
        compared code unit by code unit.
      - An optional field ([x?: T], a missing JSON key, [undefined]) is an
        [option]; a value is "truthy" as JavaScript has it ([truthy]).
      - An [async] function returns its outcome as a [Result]: the value
        the promise resolves to, or the exception it rejects with, paired
        with the store it leaves behind.
      - The store is an in-memory relational store: every table is a finite
        map from primary key to row.  A call to the store answers with a
        [PgResponse] (the [{data, error}] object of the client library).
        The store fails where its own rules make it fail (no row for
        [single], a key that is taken, a range out of reach); a failure of
        the store itself (a lost connection) is an explicit [fault] where a
        service is read under it ([getProjectsByClientId]), and is not
        modelled elsewhere. *)

From Stdlib Require Import ZArith Ascii String List Sorted Permutation.
From stdpp Require Import base option gmap strings list sorting.

Local Open Scope Z_scope.
Local Open Scope string_scope.
Local Open Scope list_scope.
Local Open Scope stdpp_scope.

(** ** JavaScript values *)

(** What a [throw] carries: [new Error(message)], or the [TypeError] the
    runtime raises itself. *)
Inductive exn : Type :=
| Error (message : string)
| TypeError (message : string).

Definition exn_message (e : exn) : string :=
  match e with Error m => m | TypeError m => m end.

Inductive Result (A : Type) : Type :=
| Ok (a : A)
| Throw (e : exn).
Arguments Ok {A} a.
Arguments Throw {A} e.

(** Truthiness of a string: every string but the empty one. *)
Definition truthy (s : string) : bool := negb (s =? "")%string.

(** Truthiness of an optional string: [undefined] is falsy. *)
Definition truthy_opt (o : option string) : bool :=
  match o with Some s => truthy s | None => false end.

(** [Array.prototype.includes] on an array of strings. *)
Definition includes (l : list string) (x : string) : bool :=
  existsb (fun y => (y =? x)%string) l.

(** [String.prototype.includes]: [needle] occurs in [hay]. *)
Fixpoint str_includes (hay needle : string) : bool :=
  String.prefix needle hay ||
  match hay with
  | EmptyString => false
  | String _ hay' => str_includes hay' needle
  end.

(** White space and line terminators of ECMAScript within the 8-bit range:
    TAB, LF, VT, FF, CR, SP and NBSP. *)
Definition is_white_space (c : ascii) : bool :=
  let n := N_of_ascii c in
  ((9 <=? n) && (n <=? 13) || (n =? 32) || (n =? 160))%N.

Fixpoint trimStart (s : string) : string :=
  match s with
  | EmptyString => EmptyString
  | String c s' => if is_white_space c then trimStart s' else s
  end.

Fixpoint trimEnd (s : string) : string :=
  match s with
  | EmptyString => EmptyString
  | String c s' =>
      match trimEnd s' with
      | EmptyString => if is_white_space c then EmptyString else String c EmptyString
      | t => String c t
      end
  end.

(** [String.prototype.trim]. *)
Definition trim (s : string) : string := trimEnd (trimStart s).

(** ** Types of [project.types.ts] *)

Module ProjectStatus.
Definition PENDING : string := "pending".
Definition IN_PROGRESS : string := "in_progress".
Definition COMPLETED : string := "completed".
Definition CANCELLED : string := "cancelled".
(** [Object.values(ProjectStatus)] *)
Definition values : list string := [PENDING; IN_PROGRESS; COMPLETED; CANCELLED].
End ProjectStatus.

(** The transition table is an object literal read by key: a finite map.
    A key the literal does not list reads as [undefined] ([None]), or as
    the property of that name every object inherits
    ([Object_prototype_keys]), which is no array either. *)
Definition PROJECT_STATUS_TRANSITIONS : gmap string (list string) :=
  list_to_map
    [ (ProjectStatus.PENDING, [ProjectStatus.IN_PROGRESS; ProjectStatus.CANCELLED]);
      (ProjectStatus.IN_PROGRESS, [ProjectStatus.COMPLETED; ProjectStatus.CANCELLED]);
      (ProjectStatus.COMPLETED, []);
      (ProjectStatus.CANCELLED, []) ].

(** The names that an object literal inherits from [Object.prototype]. *)
Definition Object_prototype_keys : list string :=
  [ "constructor"; "__defineGetter__"; "__defineSetter__"; "hasOwnProperty";
    "__lookupGetter__"; "__lookupSetter__"; "isPrototypeOf";
    "propertyIsEnumerable"; "toString"; "valueOf"; "__proto__";
    "toLocaleString" ].

Module User.
Record t : Type := mk
  { id : string;
    is_freelancer : bool;
    name : string;
    username : string;
    email : string }.
End User.

Module Project.
Record t : Type := mk
  { id : string;
    client_id : string;
    title : string;
    description : string;
    category : string;
    budget : Z;
    status : string;
    created_at : Z }.
End Project.

Module CreateProjectDTO.
Record t : Type := mk
  { client_id : string;
    title : string;
    description : string;
    category : string;
    budget : Z }.
End CreateProjectDTO.

Module UpdateProjectDTO.
Record t : Type := mk
  { title : option string;
    description : option string;
    category : option string;
    budget : option Z;
    status : option string }.
End UpdateProjectDTO.

Module ProjectFilters.
Record t : Type := mk
  { category : option string;
    budget_min : option Z;
    budget_max : option Z;
    status : option string;
    page : option Z;
    limit : option Z }.
End ProjectFilters.

(** ** Types of the contract controller

    [contract.types.ts] is not among the sources; the fields are the ones
    the controller reads and its documentation lists.  A request body may
    lack any of them. *)

Module CreateContractDTO.
Record t : Type := mk
  { contract_type : option string;
    freelancer_id : option string;
    client_id : option string;
    contract_on_chain_id : option string;
    amount_locked : option Z;
    project_id : option string;
    service_request_id : option string }.
End CreateContractDTO.

Module UpdateContractDTO.
Record t : Type := mk
  { escrow_status : option string;
    user_id : option string }.
End UpdateContractDTO.

Module Contract.
Record t : Type := mk
  { id : string;
    contract_type : string;
    freelancer_id : string;
    client_id : string;
    project_id : option string;
    service_request_id : option string;
    contract_on_chain_id : string;
    amount_locked : Z;
    escrow_status : string;
    created_at : Z }.
End Contract.

(** ** The store *)

(** The tables the services read and write.  The key of a row is its [id]
    column (the primary key). *)
Record Store : Type := mkStore
  { users : gmap string User.t;
    projects : gmap string Project.t;
    contracts : gmap string Contract.t }.

(** [{data, error}] as the client library answers. *)
Record PgResponse (A : Type) : Type := mkResponse
  { data : option A;
    error : option string }.
Arguments mkResponse {A} data error.
Arguments data {A} _.
Arguments error {A} _.

Definition pg_ok {A} (a : A) : PgResponse A := mkResponse (Some a) None.
Definition pg_error {A} (msg : string) : PgResponse A := mkResponse None (Some msg).

Definition PGRST116 : string :=
  "JSON object requested, multiple (or no) rows returned".
Definition PG23505 : string :=
  "duplicate key value violates unique constraint".

(** [.eq("id", key)] on a table: the rows of that primary key, none or one. *)
Definition rows_eq_id {A} (table : gmap string A) (key : string) : list A :=
  option_list (table !! key).

(** [.single()]: exactly one row, or an error. *)
Definition single {A} (rows : list A) : PgResponse A :=
  match rows with
  | [r] => pg_ok r
  | _ => pg_error PGRST116
  end.

(** [.from(table).select(...).eq("id", key).single()] *)
Definition select_single {A} (table : gmap string A) (key : string) : PgResponse A :=
  single (rows_eq_id table key).

Definition set_projects (f : gmap string Project.t → gmap string Project.t)
  (s : Store) : Store :=
  {| users := users s; projects := f (projects s); contracts := contracts s |}.

Definition set_contracts (f : gmap string Contract.t → gmap string Contract.t)
  (s : Store) : Store :=
  {| users := users s; projects := projects s; contracts := f (contracts s) |}.

(** What the store itself fills in on insert: the [id] and [created_at]
    defaults of the table. *)
Record Generated : Type := mkGenerated
  { new_id : string;
    now : Z }.

(** [.from("projects").insert({...}).select(...).single()].  A generated id
    that is taken already violates the primary key. *)
Definition insert_project (s : Store) (g : Generated)
  (client_id title description category : string) (budget : Z) (status : string)
  : PgResponse Project.t * Store :=
  match projects s !! new_id g with
  | Some _ => (pg_error PG23505, s)
  | None =>
      let p := Project.mk (new_id g) client_id title description category
                 budget status (now g) in
      (single [p], set_projects (insert (new_id g) p) s)
  end.

(** The columns an update object sets: a key that is absent leaves its
    column as it is. *)
Definition apply_patch (u : UpdateProjectDTO.t) (p : Project.t) : Project.t :=
  Project.mk
    (Project.id p)
    (Project.client_id p)
    (default (Project.title p) (UpdateProjectDTO.title u))
    (default (Project.description p) (UpdateProjectDTO.description u))
    (default (Project.category p) (UpdateProjectDTO.category u))
    (default (Project.budget p) (UpdateProjectDTO.budget u))
    (default (Project.status p) (UpdateProjectDTO.status u))
    (Project.created_at p).

Definition patch_is_empty (u : UpdateProjectDTO.t) : bool :=
  match UpdateProjectDTO.title u, UpdateProjectDTO.description u,
        UpdateProjectDTO.category u, UpdateProjectDTO.budget u,
        UpdateProjectDTO.status u with
  | None, None, None, None, None => true
  | _, _, _, _, _ => false
  end.

(** [.from("projects").update(patch).eq("id", key)]: the rows as updated,
    and the store after.  An update object without any key touches no
    row. *)
Definition update_eq_id (s : Store) (patch : UpdateProjectDTO.t) (key : string)
  : list Project.t * Store :=
  if patch_is_empty patch then ([], s)
  else
    match projects s !! key with
    | Some p =>
        let p' := apply_patch patch p in
        ([p'], set_projects (insert key p') s)
    | None => ([], s)
    end.

(** ** [ProjectService] *)

Definition USER_NOT_FOUND : string := "User not found".
Definition ONLY_CLIENTS : string := "Only clients can create projects".
Definition UNAUTHORIZED_UPDATE : string :=
  "Unauthorized: You can only update your own projects".
Definition UNAUTHORIZED_DELETE : string :=
  "Unauthorized: You can only delete your own projects".
Definition ONLY_PENDING : string :=
  "Can only delete projects that are still pending".
Definition INCLUDES_OF_UNDEFINED : string :=
  "Cannot read properties of undefined (reading 'includes')".
Definition INCLUDES_NOT_A_FUNCTION : string :=
  "allowedTransitions.includes is not a function".

Definition invalid_transition_message (from to : string) : string :=
  "Invalid status transition from " +:+ from +:+ " to " +:+ to.

(** The failures of the specification's taxonomy, as the service throws
    them. *)
Definition NotFound : exn := Error USER_NOT_FOUND.
Definition Forbidden : exn := Error ONLY_CLIENTS.
Definition InvalidState : exn := Error ONLY_PENDING.
Definition InvalidTransition (from to : string) : exn :=
  Error (invalid_transition_message from to).

Definition createProject (s : Store) (g : Generated)
  (projectData : CreateProjectDTO.t) : Result (option Project.t) * Store :=
  let client_id := CreateProjectDTO.client_id projectData in
  let user := select_single (users s) client_id in
  match error user, data user with
  | None, Some user =>
      if User.is_freelancer user then (Throw (Error ONLY_CLIENTS), s)
      else
        let '(r, s') :=
          insert_project s g client_id
            (trim (CreateProjectDTO.title projectData))
            (trim (CreateProjectDTO.description projectData))
            (trim (CreateProjectDTO.category projectData))
            (CreateProjectDTO.budget projectData)
            ProjectStatus.PENDING in
        match error r with
        | Some msg => (Throw (Error ("Failed to create project: " +:+ msg)), s')
        | None => (Ok (data r), s')
        end
  | _, _ => (Throw (Error USER_NOT_FOUND), s)
  end.

(** [clientId && existingProject.client_id !== clientId] *)
Definition not_owner (clientId : option string) (owner : string) : bool :=
  match clientId with
  | Some c => truthy c && negb (owner =? c)%string
  | None => false
  end.

(** What [allowedTransitions.includes(...)] raises when the table has no
    entry for the current status: [allowedTransitions] is [undefined], or
    an inherited property without such a method. *)
Definition includes_failure (current : string) : exn :=
  TypeError (if includes Object_prototype_keys current
             then INCLUDES_NOT_A_FUNCTION
             else INCLUDES_OF_UNDEFINED).

(** The status validation of [updateProject], over the table it reads:
    [None] when the update may go on, the exception otherwise. *)
Definition check_transition (table : gmap string (list string))
  (target : option string) (current : string) : option exn :=
  match target with
  | Some t =>
      if truthy t && negb (t =? current)%string then
        match table !! current with
        | Some allowedTransitions =>
            if includes allowedTransitions t then None
            else Some (Error (invalid_transition_message current t))
        | None => Some (includes_failure current)
        end
      else None
  | None => None
  end.

(** [if (updatedData.f) updatedData.f = updatedData.f.trim()] *)
Definition trim_field (o : option string) : option string :=
  match o with
  | Some v => if truthy v then Some (trim v) else Some v
  | None => None
  end.

Definition prepare_update (updateData : UpdateProjectDTO.t) : UpdateProjectDTO.t :=
  UpdateProjectDTO.mk
    (trim_field (UpdateProjectDTO.title updateData))
    (trim_field (UpdateProjectDTO.description updateData))
    (trim_field (UpdateProjectDTO.category updateData))
    (UpdateProjectDTO.budget updateData)
    (UpdateProjectDTO.status updateData).

(** [updateProject], with the transition table as a parameter; the
    service is its instance at [PROJECT_STATUS_TRANSITIONS]. *)
Definition updateProject_over (table : gmap string (list string))
  (s : Store) (projectId : string) (updateData : UpdateProjectDTO.t)
  (clientId : option string) : Result (option Project.t) * Store :=
  let existing := select_single (projects s) projectId in
  match error existing, data existing with
  | None, Some existingProject =>
      if not_owner clientId (Project.client_id existingProject)
      then (Throw (Error UNAUTHORIZED_UPDATE), s)
      else
        match check_transition table (UpdateProjectDTO.status updateData)
                (Project.status existingProject) with
        | Some e => (Throw e, s)
        | None =>
            let updatedData := prepare_update updateData in
            let '(rows, s') := update_eq_id s updatedData projectId in
            let r := single rows in
            match error r with
            | Some msg => (Throw (Error ("Failed to update project: " +:+ msg)), s')
            | None => (Ok (data r), s')
            end
        end
  | _, _ => (Ok None, s)
  end.

Definition updateProject : Store → string → UpdateProjectDTO.t → option string →
  Result (option Project.t) * Store :=
  updateProject_over PROJECT_STATUS_TRANSITIONS.

Definition cancel_patch : UpdateProjectDTO.t :=
  UpdateProjectDTO.mk None None None None (Some ProjectStatus.CANCELLED).

Definition deleteProject (s : Store) (projectId : string)
  (clientId : option string) : Result bool * Store :=
  let existing := select_single (projects s) projectId in
  match error existing, data existing with
  | None, Some existingProject =>
      if not_owner clientId (Project.client_id existingProject)
      then (Throw (Error UNAUTHORIZED_DELETE), s)
      else if negb (Project.status existingProject =? ProjectStatus.PENDING)%string
      then (Throw (Error ONLY_PENDING), s)
      else
        let '(_, s') := update_eq_id s cancel_patch projectId in
        (Ok true, s')
  | _, _ => (Ok false, s)
  end.

(** *** The pattern operator of the store *)

(** Lower case of a code unit, for the letters [A] to [Z]. *)
Definition to_lower (c : ascii) : ascii :=
  let n := N_of_ascii c in
  if ((65 <=? n) && (n <=? 90))%N then ascii_of_N (n + 32) else c.

Inductive like_token : Type :=
| AnySeq
| AnyChar
| Lit (c : ascii).

(** A pattern of [LIKE]: [%] stands for any sequence of characters, [_]
    for any single one, and a backslash takes the character after it
    literally.  The request layer of the store reads [*] as [%].  (A
    pattern that ends in a lone backslash is refused by the store; the
    service closes every pattern with [%], and the reading stops there.) *)
Fixpoint parse_like (p : list ascii) : list like_token :=
  match p with
  | [] => []
  | c :: p' =>
      if (c =? "%")%char || (c =? "*")%char then AnySeq :: parse_like p'
      else if (c =? "_")%char then AnyChar :: parse_like p'
      else if (c =? "\")%char then
        match p' with
        | [] => []
        | d :: p'' => Lit d :: parse_like p''
        end
      else Lit c :: parse_like p'
  end.

Fixpoint like_match (p : list like_token) (v : list ascii) : bool :=
  match p with
  | [] => match v with [] => true | _ :: _ => false end
  | AnySeq :: p' =>
      (fix skip (v : list ascii) : bool :=
         like_match p' v ||
         match v with [] => false | _ :: v' => skip v' end) v
  | AnyChar :: p' =>
      match v with [] => false | _ :: v' => like_match p' v' end
  | Lit c :: p' =>
      match v with
      | [] => false
      | d :: v' => (to_lower c =? to_lower d)%char && like_match p' v'
      end
  end.

(** [column ILIKE pattern] *)
Definition ilike (value pattern : string) : bool :=
  like_match (parse_like (list_ascii_of_string pattern))
    (list_ascii_of_string value).

(** *** The query of [getAllProjects] *)

(** A row of [projects] with the row of [users] it embeds. *)
Definition Joined : Type := Project.t * User.t.

(** The builder collects the clauses of one request; the order in which
    they are added is not the order in which the store applies them. *)
Record Query : Type := mkQuery
  { q_where : list (Joined → bool);
    q_range : option (Z * Z);
    q_order_created_at : option bool }.

(** [.from("projects").select("..., users!inner (...)", {count: "exact"})] *)
Definition select_projects : Query := mkQuery [] None None.

Definition q_filter (f : Joined → bool) (q : Query) : Query :=
  mkQuery (q_where q ++ [f]) (q_range q) (q_order_created_at q).

Definition q_ilike_category (pattern : string) : Query → Query :=
  q_filter (fun r => ilike (Project.category r.1) pattern).
Definition q_gte_budget (b : Z) : Query → Query :=
  q_filter (fun r => (b <=? Project.budget r.1)%Z).
Definition q_lte_budget (b : Z) : Query → Query :=
  q_filter (fun r => (Project.budget r.1 <=? b)%Z).
Definition q_eq_status (st : string) : Query → Query :=
  q_filter (fun r => (Project.status r.1 =? st)%string).

(** [.range(from, to)] *)
Definition q_set_range (from to : Z) (q : Query) : Query :=
  mkQuery (q_where q) (Some (from, to)) (q_order_created_at q).

(** [.order("created_at", {ascending})] *)
Definition q_order (ascending : bool) (q : Query) : Query :=
  mkQuery (q_where q) (q_range q) (Some ascending).

Record PgList : Type := mkPgList
  { l_data : option (list Joined);
    l_error : option string;
    l_count : option Z }.

(** The rows of a table, in the order the store happens to yield them. *)
Definition table_rows {A} (table : gmap string A) : list A :=
  (map_to_list table).*2.

(** The inner join of [projects] with [users] on [client_id]. *)
Definition join_users (s : Store) : list Joined :=
  omap (fun p => pair p <$> users s !! Project.client_id p) (table_rows (projects s)).

Definition satisfies (fs : list (Joined → bool)) (r : Joined) : bool :=
  forallb (fun f => f r) fs.

Definition newest_first (x y : Joined) : Prop :=
  (Project.created_at y.1 ≤ Project.created_at x.1)%Z.
Definition oldest_first (x y : Joined) : Prop :=
  (Project.created_at x.1 ≤ Project.created_at y.1)%Z.

#[global] Instance newest_first_dec : RelDecision newest_first.
Proof. intros x y. unfold newest_first. apply _. Defined.
#[global] Instance oldest_first_dec : RelDecision oldest_first.
Proof. intros x y. unfold oldest_first. apply _. Defined.

Definition ordered (o : option bool) (rows : list Joined) : list Joined :=
  match o with
  | Some false => merge_sort newest_first rows
  | Some true => merge_sort oldest_first rows
  | None => rows
  end.

Definition RANGE_ERROR : string := "Requested range not satisfiable".

(** [await query]: the store selects the rows that satisfy every clause,
    counts them, orders them, and cuts the range out of the ordered rows.
    A range that starts below zero or has a negative length is refused,
    and so is, the exact count being asked for, a range that starts beyond
    the rows counted. *)
Definition run_query (s : Store) (q : Query) : PgList :=
  let rows := ordered (q_order_created_at q)
                (List.filter (satisfies (q_where q)) (join_users s)) in
  let count := Z.of_nat (length rows) in
  match q_range q with
  | None => mkPgList (Some rows) None (Some count)
  | Some (from, to) =>
      if ((from <? 0) || (to - from + 1 <? 0) || (count <? from))%Z
      then mkPgList None (Some RANGE_ERROR) None
      else mkPgList
             (Some (take (Z.to_nat (to - from + 1)) (drop (Z.to_nat from) rows)))
             None (Some count)
  end.

Module Client.
Record t : Type := mk
  { id : string;
    name : string;
    username : string;
    email : string }.
End Client.

Module ProjectWithClient.
Record t : Type := mk
  { id : string;
    client_id : string;
    title : string;
    description : string;
    category : string;
    budget : Z;
    status : string;
    created_at : Z;
    client : Client.t }.
End ProjectWithClient.

Definition with_client (r : Joined) : ProjectWithClient.t :=
  let project := r.1 in
  let user := r.2 in
  ProjectWithClient.mk
    (Project.id project) (Project.client_id project) (Project.title project)
    (Project.description project) (Project.category project)
    (Project.budget project) (Project.status project)
    (Project.created_at project)
    (Client.mk (User.id user) (User.name user) (User.username user)
       (User.email user)).

Record ProjectPage : Type := mkProjectPage
  { page_projects : list ProjectWithClient.t;
    total : Z }.

(** [if (c) q = step(q)] *)
Definition when {A} (c : bool) (step : A → A) (q : A) : A :=
  if c then step q else q.

Definition getAllProjects (s : Store) (filters : ProjectFilters.t)
  : Result ProjectPage :=
  let category := ProjectFilters.category filters in
  let budget_min := ProjectFilters.budget_min filters in
  let budget_max := ProjectFilters.budget_max filters in
  let status := ProjectFilters.status filters in
  let page := default 1 (ProjectFilters.page filters) in
  let limit := default 10 (ProjectFilters.limit filters) in
  let query := select_projects in
  let query :=
    match category with
    | Some c => when (truthy c) (q_ilike_category ("%" +:+ c +:+ "%")) query
    | None => query
    end in
  let query :=
    match budget_min with Some b => q_gte_budget b query | None => query end in
  let query :=
    match budget_max with Some b => q_lte_budget b query | None => query end in
  let query :=
    match status with
    | Some st => when (truthy st) (q_eq_status st) query
    | None => query
    end in
  let offset := (page - 1) * limit in
  let query := q_set_range offset (offset + limit - 1) query in
  let query := q_order false query in
  let r := run_query s query in
  match l_error r with
  | Some msg => Throw (Error ("Failed to fetch projects: " +:+ msg))
  | None =>
      Ok (mkProjectPage (with_client <$> default [] (l_data r))
            (default 0 (l_count r)))
  end.

(** *** [getProjectCategories] *)

(** [new Set(array)], spread back into an array: the elements in the order
    of their first occurrence. *)
Definition Set_add (seen : list string) (x : string) : list string :=
  if bool_decide (x ∈ seen) then seen else seen ++ [x].

Definition new_Set (l : list string) : list string :=
  fold_left Set_add l [].

(** [Array.prototype.sort()] without a comparator, on strings: ascending
    by code units; the sort is stable. *)
Definition sort (l : list string) : list string := merge_sort String.le l.

(** [.from("projects").select("category").neq("status", st)] *)
Definition select_category_neq_status (s : Store) (st : string) : list string :=
  Project.category <$>
    List.filter (fun p => negb (Project.status p =? st)%string)
      (table_rows (projects s)).

Definition getProjectCategories (s : Store) : Result (list string) :=
  let categories := select_category_neq_status s ProjectStatus.CANCELLED in
  let uniqueCategories := new_Set categories in
  Ok (sort uniqueCategories).

(** ** Request handlers *)

(** The JSON body of a response: [{success, message, data}]. *)
Record Body (D : Type) : Type := mkBody
  { success : bool;
    message : string;
    payload : option D }.
Arguments mkBody {D} success message payload.
Arguments success {D} _.
Arguments message {D} _.
Arguments payload {D} _.

(** [res.status(code).json(body)] *)
Record HttpResponse (D : Type) : Type := mkHttp
  { code : Z;
    body : Body D }.
Arguments mkHttp {D} code body.
Arguments code {D} _.
Arguments body {D} _.

(** How a handler ends: it sends a response, it hands the exception to
    the error middleware with [next(error)], or (without a [try]) its
    promise rejects. *)
Inductive Outcome (D : Type) : Type :=
| Sent (r : HttpResponse D)
| Next (e : exn)
| Rejected (e : exn).
Arguments Sent {D} r.
Arguments Next {D} e.
Arguments Rejected {D} e.

Definition failure {D} (c : Z) (msg : string) : Outcome D :=
  Sent (mkHttp c (mkBody false msg None)).

(** *** The UUID pattern of the project controller *)

Definition between (lo hi : N) (c : ascii) : bool :=
  let n := N_of_ascii c in ((lo <=? n) && (n <=? hi))%N.

(** [[0-9a-f]] under the [i] flag *)
Definition hex (c : ascii) : bool :=
  between 48 57 c || between 97 102 c || between 65 70 c.
(** [[1-5]] *)
Definition version_digit (c : ascii) : bool := between 49 53 c.
(** [[89ab]] under the [i] flag *)
Definition variant_digit (c : ascii) : bool :=
  between 56 57 c || between 97 98 c || between 65 66 c.
Definition dash (c : ascii) : bool := (c =? "-")%char.

(** A pattern that is a sequence of character classes, anchored at both
    ends. *)
Fixpoint matches_classes (classes : list (ascii → bool)) (s : string) : bool :=
  match classes, s with
  | [], EmptyString => true
  | f :: classes', String c s' => f c && matches_classes classes' s'
  | _, _ => false
  end.

(** [/^[0-9a-f]{8}-[0-9a-f]{4}-[1-5][0-9a-f]{3}-[89ab][0-9a-f]{3}-[0-9a-f]{12}$/i] *)
Definition uuidRegex : list (ascii → bool) :=
  replicate 8 hex ++ [dash] ++ replicate 4 hex ++ [dash] ++
  [version_digit] ++ replicate 3 hex ++ [dash] ++
  [variant_digit] ++ replicate 3 hex ++ [dash] ++ replicate 12 hex.

Definition uuidRegex_test (id : string) : bool := matches_classes uuidRegex id.

(** *** The project controller *)

Definition INVALID_PROJECT_ID : string := "Invalid project ID format".
Definition PROJECT_NOT_FOUND : string := "Project not found".

Definition join_comma (l : list string) : string :=
  match l with
  | [] => ""
  | x :: l' => fold_left (fun acc y => acc +:+ ", " +:+ y) l' x
  end.

Definition invalid_status_message : string :=
  "Invalid status. Must be one of: " +:+ join_comma ProjectStatus.values.

(** [updateData.budget !== undefined && updateData.budget < 0] *)
Definition negative_budget (updateData : UpdateProjectDTO.t) : bool :=
  match UpdateProjectDTO.budget updateData with
  | Some b => (b <? 0)%Z
  | None => false
  end.

(** [updateData.status && !Object.values(ProjectStatus).includes(updateData.status)] *)
Definition invalid_status (updateData : UpdateProjectDTO.t) : bool :=
  match UpdateProjectDTO.status updateData with
  | Some st => truthy st && negb (includes ProjectStatus.values st)
  | None => false
  end.

(** [updateProjectHandler]: [id] is [req.params.id], [updateData] is
    [req.body]. *)
Definition updateProjectHandler (s : Store) (id : string)
  (updateData : UpdateProjectDTO.t) : Outcome Project.t * Store :=
  if negb (uuidRegex_test id) then (failure 400 INVALID_PROJECT_ID, s)
  else if negative_budget updateData
  then (failure 400 "Budget must be a positive number", s)
  else if invalid_status updateData
  then (failure 400 invalid_status_message, s)
  else
    match updateProject s id updateData None with
    | (Ok None, s') => (failure 404 PROJECT_NOT_FOUND, s')
    | (Ok (Some updatedProject), s') =>
        (Sent (mkHttp 200
                 (mkBody true "Project updated successfully" (Some updatedProject))), s')
    | (Throw error, s') =>
        if (exn_message error =? UNAUTHORIZED_UPDATE)%string
        then (failure 403 "You can only update your own projects", s')
        else if str_includes (exn_message error) "Invalid status transition"
        then (failure 400 (exn_message error), s')
        else (Next error, s')
    end.

(** [deleteProjectHandler]: [id] is [req.params.id]. *)
Definition deleteProjectHandler (s : Store) (id : string)
  : Outcome Project.t * Store :=
  if negb (uuidRegex_test id) then (failure 400 INVALID_PROJECT_ID, s)
  else
    match deleteProject s id None with
    | (Ok false, s') => (failure 404 PROJECT_NOT_FOUND, s')
    | (Ok true, s') =>
        (Sent (mkHttp 200 (mkBody true "Project deleted successfully" None)), s')
    | (Throw error, s') =>
        if (exn_message error =? UNAUTHORIZED_DELETE)%string
        then (failure 403 "You can only delete your own projects", s')
        else if (exn_message error =? ONLY_PENDING)%string
        then (failure 400 ONLY_PENDING, s')
        else (Next error, s')
    end.

(** *** The contract controller *)

(** Modelled from the spec: [types/api.type.ts] is not among the sources.
    The codes are the ones of section 6 of the specification (400 for
    validation errors, 404 for not found, 201 and 200 for success); the
    controller itself writes the literal 400 beside
    [HTTP_STATUS.BAD_REQUEST]. *)
Module HTTP_STATUS.
Definition OK : Z := 200.
Definition CREATED : Z := 201.
Definition BAD_REQUEST : Z := 400.
Definition NOT_FOUND : Z := 404.
End HTTP_STATUS.

(** Modelled from the spec: [utils/validation.ts] is not among the
    sources.  A contract is of type project or service (section 3). *)
Definition CONTRACT_TYPES : list string := ["project"; "service"].

(** Modelled from the spec: [utils/validation.ts] is not among the
    sources.  The statuses that [updateContractStatus] may set are funded,
    released and disputed (section 4.2), as the message of the handler
    lists them. *)
Definition ACTIVE_ESCROW_STATUSES : list string :=
  ["funded"; "released"; "disputed"].

(** Modelled from the spec: [utils/responseBuilder.ts] is not among the
    sources.  Every response has the shape [{success, message, data}]
    (section 6). *)
Definition buildSuccessResponse {D} (d : D) (msg : string) : Body D :=
  mkBody true msg (Some d).

Definition FREELANCER_OR_CLIENT_NOT_FOUND : string :=
  "Freelancer or client not found".
Definition SAME_USER : string :=
  "Freelancer and client cannot be the same user".
Definition MISSING_CONTRACT_FIELDS : string :=
  "Missing required fields: contract_type, freelancer_id, client_id, "
  +:+ "contract_on_chain_id, amount_locked".

Section ContractController.

(** The contract service and the UUID pattern of [utils/validation.ts]
    are not among the sources: the handlers are stated over any service,
    with its own store [ST] and contract [C], and any pattern. *)
Context {ST C : Type}.
Variable UUID_REGEX_test : string → bool.
Variable createContract : ST → CreateContractDTO.t → Result C * ST.
Variable updateContractStatus :
  ST → string → UpdateContractDTO.t → option string → Result (option C) * ST.

(** The catch block of [createContractHandler]. *)
Definition createContract_catch (error : exn) : Outcome C :=
  if (exn_message error =? FREELANCER_OR_CLIENT_NOT_FOUND)%string
  then failure HTTP_STATUS.BAD_REQUEST FREELANCER_OR_CLIENT_NOT_FOUND
  else if (exn_message error =? SAME_USER)%string
  then failure HTTP_STATUS.BAD_REQUEST SAME_USER
  else if str_includes (exn_message error) "is required for"
  then failure HTTP_STATUS.BAD_REQUEST (exn_message error)
  else if str_includes (exn_message error) "Invalid"
  then failure 400 (exn_message error)
  else Next error.

Definition createContractHandler (s : ST) (contractData : CreateContractDTO.t)
  : Outcome C * ST :=
  match CreateContractDTO.contract_type contractData,
        CreateContractDTO.freelancer_id contractData,
        CreateContractDTO.client_id contractData,
        CreateContractDTO.contract_on_chain_id contractData,
        CreateContractDTO.amount_locked contractData with
  | Some contract_type, Some freelancer_id, Some client_id,
    Some contract_on_chain_id, Some amount_locked =>
      if negb (truthy contract_type) || negb (truthy freelancer_id) ||
         negb (truthy client_id) || negb (truthy contract_on_chain_id)
      then (failure HTTP_STATUS.BAD_REQUEST MISSING_CONTRACT_FIELDS, s)
      else if negb (includes CONTRACT_TYPES contract_type)
      then (failure HTTP_STATUS.BAD_REQUEST
              "contract_type must be 'project' or 'service'", s)
      else if (amount_locked <=? 0)%Z
      then (failure HTTP_STATUS.BAD_REQUEST
              "amount_locked must be greater than 0", s)
      else if (String.length (trim contract_on_chain_id) =? 0)%nat
      then (failure HTTP_STATUS.BAD_REQUEST
              "contract_on_chain_id cannot be empty", s)
      else
        match createContract s contractData with
        | (Ok newContract, s') =>
            (Sent (mkHttp HTTP_STATUS.CREATED
                     (buildSuccessResponse newContract
                        "Contract created successfully")), s')
        | (Throw error, s') => (createContract_catch error, s')
        end
  | _, _, _, _, _ =>
      (failure HTTP_STATUS.BAD_REQUEST MISSING_CONTRACT_FIELDS, s)
  end.

(** [updateContractStatusHandler]: [id] is [req.params.id], [updateData]
    is [req.body]; the handler has no [try]. *)
Definition updateContractStatusHandler (s : ST) (id : string)
  (updateData : UpdateContractDTO.t) : Outcome C * ST :=
  let userId := UpdateContractDTO.user_id updateData in
  if negb (UUID_REGEX_test id)
  then (failure 400 "Invalid contract ID format", s)
  else
    match UpdateContractDTO.escrow_status updateData with
    | None => (failure HTTP_STATUS.BAD_REQUEST "escrow_status is required", s)
    | Some escrow_status =>
        if negb (truthy escrow_status)
        then (failure HTTP_STATUS.BAD_REQUEST "escrow_status is required", s)
        else if negb (includes ACTIVE_ESCROW_STATUSES escrow_status)
        then (failure HTTP_STATUS.BAD_REQUEST
                "escrow_status must be 'funded', 'released', or 'disputed'", s)
        else
          match updateContractStatus s id updateData userId with
          | (Ok None, s') => (failure HTTP_STATUS.NOT_FOUND "Contract not found", s')
          | (Ok (Some updatedContract), s') =>
              (Sent (mkHttp HTTP_STATUS.OK
                       (buildSuccessResponse updatedContract
                          "Contract status updated successfully")), s')
          | (Throw error, s') => (Rejected error, s')
          end
    end.

End ContractController.

(** *** The contract service *)

Definition PROJECT_ID_REQUIRED : string :=
  "project_id is required for project contracts".
Definition SERVICE_REQUEST_ID_REQUIRED : string :=
  "service_request_id is required for service contracts".
Definition INVALID_INPUT : string := "Invalid input".

(** [.from("contracts").insert({...}).select().single()] *)
Definition insert_contract (s : Store) (g : Generated)
  (contract_type freelancer_id client_id : string)
  (project_id service_request_id : option string)
  (contract_on_chain_id : string) (amount_locked : Z) (escrow_status : string)
  : PgResponse Contract.t * Store :=
  match contracts s !! new_id g with
  | Some _ => (pg_error PG23505, s)
  | None =>
      let c := Contract.mk (new_id g) contract_type freelancer_id client_id
                 project_id service_request_id contract_on_chain_id
                 amount_locked escrow_status (now g) in
      (single [c], set_contracts (insert (new_id g) c) s)
  end.

(** Modelled from the spec: [contract.service.ts] is not among the
    sources.  Section 4.2 has [createContract] validate the type, the
    amount, the on-chain id and that freelancer and client differ
    (InvalidInput), then that both resolve to users (NotFound, in one
    combined check), then the reference its type requires (InvalidInput),
    and insert the row with escrow status pending.  The texts are the ones
    the specification and the controller quote; an InvalidInput without a
    quoted text carries [INVALID_INPUT]. *)
Definition createContract (g : Generated) (s : Store)
  (contractData : CreateContractDTO.t) : Result Contract.t * Store :=
  match CreateContractDTO.contract_type contractData,
        CreateContractDTO.freelancer_id contractData,
        CreateContractDTO.client_id contractData,
        CreateContractDTO.contract_on_chain_id contractData,
        CreateContractDTO.amount_locked contractData with
  | Some contract_type, Some freelancer_id, Some client_id,
    Some contract_on_chain_id, Some amount_locked =>
      if negb (includes CONTRACT_TYPES contract_type) ||
         (amount_locked <=? 0)%Z ||
         negb (truthy (trim contract_on_chain_id))
      then (Throw (Error INVALID_INPUT), s)
      else if (freelancer_id =? client_id)%string
      then (Throw (Error SAME_USER), s)
      else
        match users s !! freelancer_id, users s !! client_id with
        | Some _, Some _ =>
            if (contract_type =? "project")%string &&
               negb (truthy_opt (CreateContractDTO.project_id contractData))
            then (Throw (Error PROJECT_ID_REQUIRED), s)
            else if (contract_type =? "service")%string &&
               negb (truthy_opt (CreateContractDTO.service_request_id contractData))
            then (Throw (Error SERVICE_REQUEST_ID_REQUIRED), s)
            else
              let '(r, s') :=
                insert_contract s g contract_type freelancer_id client_id
                  (CreateContractDTO.project_id contractData)
                  (CreateContractDTO.service_request_id contractData)
                  contract_on_chain_id amount_locked "pending" in
              match error r, data r with
              | None, Some contract => (Ok contract, s')
              | _, _ => (Throw (Error "Failed to create contract"), s')
              end
        | _, _ => (Throw (Error FREELANCER_OR_CLIENT_NOT_FOUND), s)
        end
  | _, _, _, _, _ => (Throw (Error INVALID_INPUT), s)
  end.

(** ** The rest of [ProjectService] *)

(** [.select("..., users!inner (...)").eq("id", key)]: the row of that key
    with the user it embeds, if both are there. *)
Definition joined_eq_id (s : Store) (key : string) : list Joined :=
  omap (fun p => pair p <$> users s !! Project.client_id p)
    (rows_eq_id (projects s) key).

(** [getProjectById]: [null] where the row cannot be had, never an
    exception. *)
Definition getProjectById (s : Store) (projectId : string)
  : Result (option ProjectWithClient.t) :=
  let r := single (joined_eq_id s projectId) in
  match error r, data r with
  | None, Some project => Ok (Some (with_client project))
  | _, _ => Ok None
  end.

Definition newer (x y : Project.t) : Prop :=
  (Project.created_at y ≤ Project.created_at x)%Z.

#[global] Instance newer_dec : RelDecision newer.
Proof. intros x y. unfold newer. apply _. Defined.

(** [.select(...).eq("client_id", clientId).order("created_at", {ascending: false})]:
    the rows of that client, newest first. *)
Definition rows_eq_client_id (s : Store) (clientId : string) : list Project.t :=
  merge_sort newer
    (List.filter (fun p => (Project.client_id p =? clientId)%string)
       (table_rows (projects s))).

(** What the store answers to that select: the rows, or the error of a
    store that cannot answer ([fault]: a lost connection, a refused
    permission), which no request decides. *)
Definition select_eq_client_id (fault : option string) (s : Store) (clientId : string)
  : PgResponse (list Project.t) :=
  match fault with
  | Some msg => pg_error msg
  | None => pg_ok (rows_eq_client_id s clientId)
  end.

Definition FAILED_TO_FETCH_CLIENT_PROJECTS : string :=
  "Failed to fetch client projects: ".

Definition getProjectsByClientId (fault : option string) (s : Store) (clientId : string)
  : Result (list Project.t) :=
  let r := select_eq_client_id fault s clientId in
  match error r with
  | Some msg => Throw (Error (FAILED_TO_FETCH_CLIENT_PROJECTS +:+ msg))
  | None => Ok (default [] (data r))
  end.

(** ** The rest of the project controller *)

(** The body of POST /projects: any field may be missing. *)
Module CreateProjectBody.
Record t : Type := mk
  { client_id : option string;
    title : option string;
    description : option string;
    category : option string;
    budget : option Z }.
End CreateProjectBody.

Definition MISSING_PROJECT_FIELDS : string :=
  "Missing required fields: client_id, title, description, category, budget".
Definition BUDGET_POSITIVE : string := "Budget must be a positive number".

(** The catch block of [createProjectHandler]. *)
Definition createProject_catch (error : exn) : Outcome Project.t :=
  if (exn_message error =? ONLY_CLIENTS)%string
  then failure 403 ONLY_CLIENTS
  else if (exn_message error =? USER_NOT_FOUND)%string
  then failure 404 USER_NOT_FOUND
  else Next error.

(** [createProjectHandler]: [projectData] is [req.body]. *)
Definition createProjectHandler (s : Store) (g : Generated)
  (projectData : CreateProjectBody.t) : Outcome Project.t * Store :=
  match CreateProjectBody.client_id projectData,
        CreateProjectBody.title projectData,
        CreateProjectBody.description projectData,
        CreateProjectBody.category projectData,
        CreateProjectBody.budget projectData with
  | Some client_id, Some title, Some description, Some category, Some budget =>
      if negb (truthy client_id) || negb (truthy title) ||
         negb (truthy description) || negb (truthy category)
      then (failure 400 MISSING_PROJECT_FIELDS, s)
      else if (budget <? 0)%Z
      then (failure 400 BUDGET_POSITIVE, s)
      else
        match createProject s g
                (CreateProjectDTO.mk client_id title description category budget) with
        | (Ok newProject, s') =>
            (Sent (mkHttp 201 (mkBody true "Project created successfully" newProject)),
             s')
        | (Throw error, s') => (createProject_catch error, s')
        end
  | _, _, _, _, _ => (failure 400 MISSING_PROJECT_FIELDS, s)
  end.

(** [getProjectByIdHandler]: [id] is [req.params.id]. *)
Definition getProjectByIdHandler (s : Store) (id : string)
  : Outcome ProjectWithClient.t :=
  if negb (uuidRegex_test id) then failure 400 INVALID_PROJECT_ID
  else
    match getProjectById s id with
    | Ok None => failure 404 PROJECT_NOT_FOUND
    | Ok (Some project) =>
        Sent (mkHttp 200 (mkBody true "Project retrieved successfully" (Some project)))
    | Throw error => Next error
    end.

(** ** Sample data

    A small store on which the operations are run: a client, a
    freelancer, and projects that are pending, in progress and completed,
    and one in a status the enum does not know. *)
Module Sample.
Definition alice_id : string := "550e8400-e29b-41d4-a716-446655440002".
Definition bob_id : string := "550e8400-e29b-41d4-a716-446655440001".
Definition nobody_id : string := "550e8400-e29b-41d4-a716-446655440009".
Definition alice : User.t :=
  User.mk alice_id false "Alice" "alice" "alice@example.org".
Definition bob : User.t :=
  User.mk bob_id true "Bob" "bob" "bob@example.org".

Definition logo_id : string := "550e8400-e29b-41d4-a716-446655440010".
Definition site_id : string := "550e8400-e29b-41d4-a716-446655440011".
Definition app_id : string := "550e8400-e29b-41d4-a716-446655440012".
Definition old_id : string := "550e8400-e29b-41d4-a716-446655440013".
Definition fresh_id : string := "550e8400-e29b-41d4-a716-446655440014".

Definition logo : Project.t :=
  Project.mk logo_id alice_id "Logo" "A logo for a bakery" "design" 300 "pending" 10.
Definition site : Project.t :=
  Project.mk site_id alice_id "Site" "A web site" "Web Design" 900 "in_progress" 20.
Definition app : Project.t :=
  Project.mk app_id alice_id "App" "A mobile app" "mobile" 150 "completed" 30.
Definition old : Project.t :=
  Project.mk old_id alice_id "Old" "An old entry" "design" 500 "archived" 5.

Definition store : Store :=
  mkStore
    (<[alice_id := alice]> (<[bob_id := bob]> ∅))
    (<[logo_id := logo]> (<[site_id := site]> (<[app_id := app]> (<[old_id := old]> ∅))))
    ∅.

Definition set_status (st : string) : UpdateProjectDTO.t :=
  UpdateProjectDTO.mk None None None None (Some st).

Definition generated : Generated := mkGenerated fresh_id 40.

(** The second page, of one row, of the design projects between 300 and
    500. *)
Definition filters : ProjectFilters.t :=
  ProjectFilters.mk (Some "DES") (Some 300) (Some 500) None (Some 2) (Some 1).

(** A category filter that is a pattern of its own. *)
Definition any_category : ProjectFilters.t :=
  ProjectFilters.mk (Some "_") None None None None None.

(** The request of the controller's documentation, with a freelancer that
    is no user of the store. *)
Definition contract_request : CreateContractDTO.t :=
  CreateContractDTO.mk (Some "project") (Some nobody_id) (Some alice_id)
    (Some "0x1234567890abcdef") (Some 1000) (Some logo_id) None.

(** A body of POST /projects whose title is white space only. *)
Definition blank_title : CreateProjectBody.t :=
  CreateProjectBody.mk (Some alice_id) (Some "   ") (Some "A logo")
    (Some " design ") (Some 0).

Definition mallory_id : string := "550e8400-e29b-41d4-a716-446655440666".

(** A project to create, what [createProject] makes of it, and the store
    with it. *)
Definition shop : CreateProjectDTO.t :=
  CreateProjectDTO.mk alice_id " Shop " "A web shop" " design" 700.
Definition shop_row : Project.t :=
  Project.mk fresh_id alice_id "Shop" "A web shop" "design" 700 "pending" 40.
Definition store_with_shop : Store :=
  set_projects (insert fresh_id shop_row) store.
End Sample.

(** ** Notions the properties are stated with *)

(** The status code of the response a handler has sent, if it sent one. *)
Definition sent_code {D} (o : Outcome D) : option Z :=
  match o with
  | Sent r => Some (code r)
  | Next _ | Rejected _ => None
  end.

(** The row an update leaves: the patch, as prepared, over the row that
    was there. *)
Definition updated (updateData : UpdateProjectDTO.t) (existing : Project.t) : Project.t :=
  apply_patch (prepare_update updateData) existing.

(** The row a soft delete leaves. *)
Definition cancelled (p : Project.t) : Project.t :=
  apply_patch cancel_patch p.

(** The last code unit of a string, if it has one. *)
Fixpoint last_char (s : string) : option ascii :=
  match s with
  | EmptyString => None
  | String c EmptyString => Some c
  | String _ s' => last_char s'
  end.

(** The request passes every check the handler makes before it calls the
    service. *)
Definition well_shaped (d : CreateContractDTO.t) : Prop :=
  ∃ contract_type freelancer_id client_id contract_on_chain_id amount_locked,
    CreateContractDTO.contract_type d = Some contract_type ∧
    CreateContractDTO.freelancer_id d = Some freelancer_id ∧
    CreateContractDTO.client_id d = Some client_id ∧
    CreateContractDTO.contract_on_chain_id d = Some contract_on_chain_id ∧
    CreateContractDTO.amount_locked d = Some amount_locked ∧
    contract_type ∈ CONTRACT_TYPES ∧
    freelancer_id ≠ "" ∧ client_id ≠ "" ∧
    trim contract_on_chain_id ≠ "" ∧
    (0 < amount_locked)%Z.

(** [needle] occurs in [hay] when the case of the letters is ignored: the
    specification's reading of the category filter. *)
Definition ci_substring (needle hay : string) : Prop :=
  ∃ before mid after : list ascii,
    list_ascii_of_string hay = before ++ mid ++ after ∧
    to_lower <$> mid = to_lower <$> list_ascii_of_string needle.

(** The code units that a pattern of the store does not take literally. *)
Definition like_special (c : ascii) : bool :=
  (c =? "%")%char || (c =? "*")%char || (c =? "_")%char || (c =? "\")%char.

(** A text without any of them. *)
Definition plain_text (t : string) : Prop :=
  Forall (fun c => like_special c = false) (list_ascii_of_string t).

(** A project passes the filters of a listing, as the specification
    reads them: the category filter occurs in the category, the budget
    lies within the bounds, both included, and the status is the one
    asked for.  A status filter that is empty counts as absent, as every
    optional string of a request does. *)
Definition passes (filters : ProjectFilters.t) (p : Project.t) : Prop :=
  (∀ c, ProjectFilters.category filters = Some c →
        ci_substring c (Project.category p)) ∧
  (∀ b, ProjectFilters.budget_min filters = Some b → (b ≤ Project.budget p)%Z) ∧
  (∀ b, ProjectFilters.budget_max filters = Some b → (Project.budget p ≤ b)%Z) ∧
  (∀ st, ProjectFilters.status filters = Some st → st ≠ "" →
         Project.status p = st).

(** The integrity the relational store keeps: a row is stored under its
    own id (primary key), and the client of a project is a user (foreign
    key). *)
Definition consistent (s : Store) : Prop :=
  (∀ key p, projects s !! key = Some p → Project.id p = key) ∧
  (∀ key p, projects s !! key = Some p →
            is_Some (users s !! Project.client_id p)).

(** The clauses [getAllProjects] adds for the filters that are present,
    in the order in which it adds them. *)
Definition where_clauses (filters : ProjectFilters.t) : list (Joined → bool) :=
  match ProjectFilters.category filters with
  | Some c =>
      if truthy c
      then [fun r : Joined => ilike (Project.category r.1) ("%" +:+ c +:+ "%")]
      else []
  | None => []
  end ++
  match ProjectFilters.budget_min filters with
  | Some b => [fun r : Joined => (b <=? Project.budget r.1)%Z]
  | None => []
  end ++
  match ProjectFilters.budget_max filters with
  | Some b => [fun r : Joined => (Project.budget r.1 <=? b)%Z]
  | None => []
  end ++
  match ProjectFilters.status filters with
  | Some st =>
      if truthy st
      then [fun r : Joined => (Project.status r.1 =? st)%string]
      else []
  | None => []
  end.

(** The row [createProject] inserts. *)
Definition created_row (g : Generated) (projectData : CreateProjectDTO.t) : Project.t :=
  Project.mk (new_id g) (CreateProjectDTO.client_id projectData)
    (trim (CreateProjectDTO.title projectData))
    (trim (CreateProjectDTO.description projectData))
    (trim (CreateProjectDTO.category projectData))
    (CreateProjectDTO.budget projectData) ProjectStatus.PENDING (now g).

(** A call of one of the three operations of the service that write. *)
Inductive ServiceCall : Type :=
| CallCreate (g : Generated) (projectData : CreateProjectDTO.t)
| CallUpdate (projectId : string) (updateData : UpdateProjectDTO.t)
    (clientId : option string)
| CallDelete (projectId : string) (clientId : option string).

(** The store a call leaves, whether it succeeds or fails. *)
Definition perform (s : Store) (c : ServiceCall) : Store :=
  match c with
  | CallCreate g projectData => snd (createProject s g projectData)
  | CallUpdate projectId updateData clientId =>
      snd (updateProject s projectId updateData clientId)
  | CallDelete projectId clientId => snd (deleteProject s projectId clientId)
  end.

Definition perform_all (s : Store) (calls : list ServiceCall) : Store :=
  fold_left perform calls s.

(** The call carries no empty status: the one value that both the
    validation of the handler and the transition check let through. *)
Definition status_not_empty (c : ServiceCall) : Prop :=
  match c with
  | CallUpdate _ updateData _ => UpdateProjectDTO.status updateData ≠ Some ""
  | CallCreate _ _ | CallDelete _ _ => True
  end.

(** The status under which the store has a project, if it has it. *)
Definition status_of (s : Store) (projectId : string) : option string :=
  Project.status <$> projects s !! projectId.

(** How many changes of status lie ahead at most: a project that is not
    there yet may be created; pending may move twice, in progress once. *)
Definition steps_left (st : option string) : nat :=
  match st with
  | None => 3
  | Some st =>
      if (st =? ProjectStatus.PENDING)%string then 2
      else if (st =? ProjectStatus.IN_PROGRESS)%string then 1
      else 0
  end.

(** The number of calls in a sequence that change the status of a
    project. *)
Fixpoint status_changes (projectId : string) (s : Store)
  (calls : list ServiceCall) : nat :=
  match calls with
  | [] => 0
  | c :: calls' =>
      (if decide (status_of (perform s c) projectId = status_of s projectId)
       then 0 else 1)
      + status_changes projectId (perform s c) calls'
  end.

(** A string in lower case. *)
Definition lower_case (s : string) : string :=
  string_of_list_ascii (to_lower <$> list_ascii_of_string s).

(** The string fields of a row are as [trim] leaves them. *)
Definition trimmed (p : Project.t) : Prop :=
  trim (Project.title p) = Project.title p ∧
  trim (Project.description p) = Project.description p ∧
  trim (Project.category p) = Project.category p.

(** The patch that gives a project its own fields back. *)
Definition own_fields (p : Project.t) : UpdateProjectDTO.t :=
  UpdateProjectDTO.mk (Some (Project.title p)) (Some (Project.description p))
    (Some (Project.category p)) (Some (Project.budget p)) (Some (Project.status p)).

(** * Properties *)

(** ** The store and the transition table *)

Lemma select_single_Some {A} (table : gmap string A) key r :
  table !! key = Some r → select_single table key = pg_ok r.
Proof. intros H. unfold select_single, rows_eq_id. by rewrite H. Qed.

Lemma select_single_None {A} (table : gmap string A) key :
  table !! key = None → select_single table key = pg_error PGRST116.
Proof. intros H. unfold select_single, rows_eq_id. by rewrite H. Qed.

Lemma truthy_true s : truthy s = true ↔ s ≠ "".
Proof.
  unfold truthy. rewrite negb_true_iff, String.eqb_neq. done.
Qed.

Lemma includes_elem_of l x : includes l x = true ↔ x ∈ l.
Proof.
  unfold includes. rewrite existsb_exists. split.
  - intros (y & Hy & Heq). apply String.eqb_eq in Heq. subst.
    by apply list_elem_of_In.
  - intros Hx. exists x. split; [by apply list_elem_of_In | apply String.eqb_refl].
Qed.

Lemma includes_not_elem_of l x : includes l x = false ↔ x ∉ l.
Proof.
  rewrite <- includes_elem_of. destruct (includes l x); split; congruence.
Qed.

(** The table, key by key. *)
Lemma transitions_pending :
  PROJECT_STATUS_TRANSITIONS !! "pending" = Some ["in_progress"; "cancelled"].
Proof. reflexivity. Qed.

Lemma transitions_in_progress :
  PROJECT_STATUS_TRANSITIONS !! "in_progress" = Some ["completed"; "cancelled"].
Proof. reflexivity. Qed.




Lemma transitions_unknown st :
  st ∉ ProjectStatus.values → PROJECT_STATUS_TRANSITIONS !! st = None.
Proof.
  unfold ProjectStatus.values. rewrite !not_elem_of_cons. intros (? & ? & ? & ? & _).
  unfold PROJECT_STATUS_TRANSITIONS. simpl.
  rewrite !lookup_insert_ne by done. apply lookup_empty.
Qed.

(** ** [updateProject] *)

(** [updateProject] on a project that exists, step by step. *)
Lemma updateProject_over_existing table s projectId existing updateData clientId :
  projects s !! projectId = Some existing →
  updateProject_over table s projectId updateData clientId =
    if not_owner clientId (Project.client_id existing)
    then (Throw (Error UNAUTHORIZED_UPDATE), s)
    else
      match check_transition table (UpdateProjectDTO.status updateData)
              (Project.status existing) with
      | Some e => (Throw e, s)
      | None =>
          if patch_is_empty (prepare_update updateData)
          then (Throw (Error ("Failed to update project: " +:+ PGRST116)), s)
          else (Ok (Some (updated updateData existing)),
                set_projects (insert projectId (updated updateData existing)) s)
      end.
Proof.
  intros Hex. unfold updateProject_over.
  rewrite (select_single_Some _ _ _ Hex). simpl.
  destruct (not_owner _ _); [done |].
  destruct (check_transition _ _ _); [done |].
  unfold update_eq_id. destruct (patch_is_empty _); [done |].
  by rewrite Hex.
Qed.

Lemma updateProject_over_missing table s projectId updateData clientId :
  projects s !! projectId = None →
  updateProject_over table s projectId updateData clientId = (Ok None, s).
Proof.
  intros Hno. unfold updateProject_over.
  by rewrite (select_single_None _ _ Hno).
Qed.

Lemma patch_with_status_not_empty updateData :
  is_Some (UpdateProjectDTO.status updateData) →
  patch_is_empty (prepare_update updateData) = false.
Proof.
  intros [st Hst]. unfold patch_is_empty, prepare_update. simpl. rewrite Hst.
  by repeat case_match.
Qed.

Lemma updated_status updateData existing st :
  UpdateProjectDTO.status updateData = Some st →
  Project.status (updated updateData existing) = st.
Proof. intros Hst. unfold updated, apply_patch. simpl. by rewrite Hst. Qed.

Lemma check_transition_differs table target current :
  target ≠ "" → target ≠ current →
  check_transition table (Some target) current =
    match table !! current with
    | Some allowed =>
        if includes allowed target then None
        else Some (InvalidTransition current target)
    | None => Some (includes_failure current)
    end.
Proof.
  intros Hne Hdiff. unfold check_transition.
  apply truthy_true in Hne. rewrite Hne.
  apply String.eqb_neq in Hdiff. by rewrite Hdiff.
Qed.

Lemma check_transition_same table current :
  check_transition table (Some current) current = None.
Proof.
  unfold check_transition. rewrite String.eqb_refl.
  by rewrite andb_false_r.
Qed.




Lemma includes_failure_unclassified current :
  (exn_message (includes_failure current) =? UNAUTHORIZED_UPDATE)%string = false ∧
  str_includes (exn_message (includes_failure current)) "Invalid status transition"
  = false.
Proof.
  unfold includes_failure.
  destruct (includes Object_prototype_keys current); split; reflexivity.
Qed.

(** C2, as the code has it.  A project whose persisted status is no
    member of the enum, a patch that names another status, the ownership
    check passed: the table has no entry for the current status, the
    lookup yields no array, and the call of [includes] on it raises a
    TypeError.  The update does not fail with InvalidTransition, the
    store is left as it was, and the handler of PUT hands the TypeError to
    the error middleware, unclassified. *)
Theorem updateProject_unknown_status_throws
  (s : Store) (projectId : string) (existing : Project.t)
  (updateData : UpdateProjectDTO.t) (target : string) (clientId : option string) :
  projects s !! projectId = Some existing →
  Project.status existing ∉ ProjectStatus.values →
  UpdateProjectDTO.status updateData = Some target →
  target ≠ "" →
  target ≠ Project.status existing →
  not_owner clientId (Project.client_id existing) = false →
  PROJECT_STATUS_TRANSITIONS !! Project.status existing = None ∧
  (∃ msg, includes_failure (Project.status existing) = TypeError msg) ∧
  updateProject s projectId updateData clientId
  = (Throw (includes_failure (Project.status existing)), s) ∧
  (∀ from to, fst (updateProject s projectId updateData clientId)
              ≠ Throw (InvalidTransition from to)) ∧
  (uuidRegex_test projectId = true →
   negative_budget updateData = false →
   invalid_status updateData = false →
   updateProjectHandler s projectId updateData
   = (Next (includes_failure (Project.status existing)), s)).
Proof.
  intros Hex Hunknown Hst Hne Hdiff Hown.
  pose proof (transitions_unknown _ Hunknown) as Hnone.
  assert (Hrun : ∀ client,
            not_owner client (Project.client_id existing) = false →
            updateProject s projectId updateData client
            = (Throw (includes_failure (Project.status existing)), s)).
  { intros client Hclient. unfold updateProject.
    rewrite (updateProject_over_existing _ _ _ _ _ _ Hex), Hclient, Hst.
    rewrite check_transition_differs by done. by rewrite Hnone. }
  split; [done |]. split; [by eexists |]. split; [by apply Hrun |]. split.
  - intros from to. rewrite (Hrun _ Hown). discriminate.
  - intros Huuid Hbudget Hstatus. unfold updateProjectHandler.
    rewrite Huuid, Hbudget, Hstatus. simpl.
    rewrite (Hrun None eq_refl).
    destruct (includes_failure_unclassified (Project.status existing)) as [-> ->].
    done.
Qed.

Lemma updateProject_unknown_status_throws_witness :
  PROJECT_STATUS_TRANSITIONS !! "archived" = None ∧
  (∃ msg, includes_failure "archived" = TypeError msg) ∧
  updateProject Sample.store Sample.old_id (Sample.set_status "completed") None
  = (Throw (TypeError INCLUDES_OF_UNDEFINED), Sample.store) ∧
  (∀ from to,
     fst (updateProject Sample.store Sample.old_id
            (Sample.set_status "completed") None)
     ≠ Throw (InvalidTransition from to)) ∧
  (uuidRegex_test Sample.old_id = true →
   negative_budget (Sample.set_status "completed") = false →
   invalid_status (Sample.set_status "completed") = false →
   updateProjectHandler Sample.store Sample.old_id (Sample.set_status "completed")
   = (Next (TypeError INCLUDES_OF_UNDEFINED), Sample.store)).
Proof.
  apply (updateProject_unknown_status_throws Sample.store Sample.old_id
           Sample.old (Sample.set_status "completed") "completed" None).
  - reflexivity.
  - unfold ProjectStatus.values. rewrite !not_elem_of_cons.
    repeat split; try discriminate. apply not_elem_of_nil.
  - reflexivity.
  - discriminate.
  - discriminate.
  - reflexivity.
Defined.

(** C2, as the specification states it, fails: the project [old] is in
    the status "archived"; the patch to "completed" does not fail with
    InvalidTransition but raises the TypeError, which the handler passes
    on to the error middleware as an unclassified error. *)
Lemma updateProject_unknown_status_counterexample :
  (Project.status Sample.old ∉ ProjectStatus.values) ∧
  (fst (updateProject Sample.store Sample.old_id (Sample.set_status "completed") None)
   ≠ Throw (InvalidTransition "archived" "completed")) ∧
  (fst (updateProject Sample.store Sample.old_id (Sample.set_status "completed") None)
   = Throw (TypeError INCLUDES_OF_UNDEFINED)) ∧
  (fst (updateProjectHandler Sample.store Sample.old_id (Sample.set_status "completed"))
   = Next (TypeError INCLUDES_OF_UNDEFINED)).
Proof.
  split.
  - unfold ProjectStatus.values. rewrite !not_elem_of_cons.
    repeat split; try discriminate. apply not_elem_of_nil.
  - split; [| split]; [| reflexivity | reflexivity].
    intros Heq. vm_compute in Heq. discriminate.
Qed.

(** C10.  A patch that restates the current status of a project never
    reads the transition table (over any two tables the update is the
    same) and never fails with InvalidTransition; once the ownership check
    has passed it succeeds, whatever the status is, completed and cancelled
    included, and the status stays what it was. *)
Theorem updateProject_same_status
  (s : Store) (projectId : string) (existing : Project.t)
  (updateData : UpdateProjectDTO.t) (clientId : option string) :
  projects s !! projectId = Some existing →
  UpdateProjectDTO.status updateData = Some (Project.status existing) →
  (∀ table1 table2,
     updateProject_over table1 s projectId updateData clientId
     = updateProject_over table2 s projectId updateData clientId) ∧
  (∀ from to, fst (updateProject s projectId updateData clientId)
              ≠ Throw (InvalidTransition from to)) ∧
  (not_owner clientId (Project.client_id existing) = false →
     updateProject s projectId updateData clientId
     = (Ok (Some (updated updateData existing)),
        set_projects (insert projectId (updated updateData existing)) s) ∧
     Project.status (updated updateData existing) = Project.status existing).
Proof.
  intros Hex Hst.
  assert (Hrun : ∀ table,
    updateProject_over table s projectId updateData clientId =
    if not_owner clientId (Project.client_id existing)
    then (Throw (Error UNAUTHORIZED_UPDATE), s)
    else (Ok (Some (updated updateData existing)),
          set_projects (insert projectId (updated updateData existing)) s)).
  { intros table.
    rewrite (updateProject_over_existing _ _ _ _ _ _ Hex), Hst.
    rewrite check_transition_same.
    by rewrite patch_with_status_not_empty by (rewrite Hst; eauto). }
  split; [| split].
  - intros table1 table2. by rewrite !Hrun.
  - intros from to. unfold updateProject. rewrite Hrun.
    destruct (not_owner _ _); simpl; [| discriminate].
    intros Heq. by inversion Heq.
  - intros Hown. unfold updateProject. rewrite Hrun, Hown.
    split; [done |]. by apply updated_status.
Qed.

Lemma updateProject_same_status_witness :
  (∀ table1 table2,
     updateProject_over table1 Sample.store Sample.app_id
       (Sample.set_status "completed") None
     = updateProject_over table2 Sample.store Sample.app_id
         (Sample.set_status "completed") None) ∧
  (∀ from to,
     fst (updateProject Sample.store Sample.app_id
            (Sample.set_status "completed") None)
     ≠ Throw (InvalidTransition from to)) ∧
  (not_owner None (Project.client_id Sample.app) = false →
     updateProject Sample.store Sample.app_id (Sample.set_status "completed") None
     = (Ok (Some (updated (Sample.set_status "completed") Sample.app)),
        set_projects
          (insert Sample.app_id (updated (Sample.set_status "completed") Sample.app))
          Sample.store) ∧
     Project.status (updated (Sample.set_status "completed") Sample.app)
     = Project.status Sample.app).
Proof.
  apply (updateProject_same_status Sample.store Sample.app_id Sample.app
           (Sample.set_status "completed") None).
  - reflexivity.
  - reflexivity.
Defined.

(** ** [deleteProject] *)

Lemma cancelled_fields p :
  cancelled p =
  Project.mk (Project.id p) (Project.client_id p) (Project.title p)
    (Project.description p) (Project.category p) (Project.budget p)
    ProjectStatus.CANCELLED (Project.created_at p).
Proof. reflexivity. Qed.

Lemma deleteProject_existing s projectId existing clientId :
  projects s !! projectId = Some existing →
  deleteProject s projectId clientId =
    if not_owner clientId (Project.client_id existing)
    then (Throw (Error UNAUTHORIZED_DELETE), s)
    else if (Project.status existing =? ProjectStatus.PENDING)%string
    then (Ok true, set_projects (insert projectId (cancelled existing)) s)
    else (Throw InvalidState, s).
Proof.
  intros Hex. unfold deleteProject.
  rewrite (select_single_Some _ _ _ Hex). simpl.
  destruct (not_owner _ _); [done |].
  destruct (Project.status existing =? ProjectStatus.PENDING)%string; simpl; [| done].
  unfold update_eq_id. simpl. by rewrite Hex.
Qed.

(** C5.  [deleteProject] answers false for a project that does not exist.
    For one that exists, the ownership check passed: in a status other
    than pending it fails with InvalidState and the store is as it was; in
    the status pending it answers true, and the store keeps the row, now
    in the status cancelled and otherwise unchanged.  After that, a
    second [deleteProject] on the same project fails, whoever asks. *)
Theorem deleteProject_soft_delete
  (s : Store) (projectId : string) (clientId : option string) :
  (projects s !! projectId = None →
     deleteProject s projectId clientId = (Ok false, s)) ∧
  (∀ existing,
     projects s !! projectId = Some existing →
     not_owner clientId (Project.client_id existing) = false →
     Project.status existing ≠ ProjectStatus.PENDING →
     deleteProject s projectId clientId = (Throw InvalidState, s)) ∧
  (∀ existing,
     projects s !! projectId = Some existing →
     not_owner clientId (Project.client_id existing) = false →
     Project.status existing = ProjectStatus.PENDING →
     ∃ s',
       deleteProject s projectId clientId = (Ok true, s') ∧
       projects s' !! projectId = Some (cancelled existing) ∧
       Project.status (cancelled existing) = ProjectStatus.CANCELLED ∧
       (∀ other, other ≠ projectId → projects s' !! other = projects s !! other) ∧
       (∀ clientId', ∃ e, deleteProject s' projectId clientId' = (Throw e, s'))).
Proof.
  split; [| split].
  - intros Hno. unfold deleteProject. by rewrite (select_single_None _ _ Hno).
  - intros existing Hex Hown Hst.
    rewrite (deleteProject_existing _ _ _ _ Hex), Hown.
    apply String.eqb_neq in Hst. by rewrite Hst.
  - intros existing Hex Hown Hst.
    exists (set_projects (insert projectId (cancelled existing)) s).
    split; [| split; [| split; [| split]]].
    + rewrite (deleteProject_existing _ _ _ _ Hex), Hown, Hst. done.
    + apply lookup_insert_eq.
    + done.
    + intros other Hother. simpl. by rewrite lookup_insert_ne.
    + intros clientId'.
      rewrite (deleteProject_existing _ projectId (cancelled existing))
        by apply lookup_insert_eq.
      rewrite cancelled_fields. simpl.
      destruct (not_owner clientId' _); by eexists.
Qed.

Lemma deleteProject_soft_delete_witness :
  deleteProject Sample.store Sample.nobody_id None = (Ok false, Sample.store) ∧
  deleteProject Sample.store Sample.site_id None = (Throw InvalidState, Sample.store) ∧
  ∃ s',
    deleteProject Sample.store Sample.logo_id None = (Ok true, s') ∧
    projects s' !! Sample.logo_id = Some (cancelled Sample.logo) ∧
    Project.status (cancelled Sample.logo) = ProjectStatus.CANCELLED ∧
    (∀ other, other ≠ Sample.logo_id →
       projects s' !! other = projects Sample.store !! other) ∧
    (∀ clientId', ∃ e, deleteProject s' Sample.logo_id clientId' = (Throw e, s')).
Proof.
  split; [| split].
  - apply (deleteProject_soft_delete Sample.store Sample.nobody_id None).
    reflexivity.
  - apply (proj1 (proj2 (deleteProject_soft_delete Sample.store Sample.site_id None))
             Sample.site).
    + reflexivity.
    + reflexivity.
    + discriminate.
  - apply (proj2 (proj2 (deleteProject_soft_delete Sample.store Sample.logo_id None))
             Sample.logo).
    + reflexivity.
    + reflexivity.
    + reflexivity.
Defined.

(** ** [createProject] *)

Lemma is_white_space_trimStart s c s' :
  trimStart s = String c s' → is_white_space c = false.
Proof.
  induction s as [| d s IH]; simpl; [discriminate |].
  destruct (is_white_space d) eqn:Hd; [done |].
  intros [= -> ->]. done.
Qed.

Lemma trimEnd_last s c :
  last_char (trimEnd s) = Some c → is_white_space c = false.
Proof.
  induction s as [| d s IH]; simpl; [discriminate |].
  destruct (trimEnd s) as [| e t] eqn:Ht.
  - destruct (is_white_space d) eqn:Hd; simpl; [discriminate |].
    by intros [= <-].
  - simpl. simpl in IH. done.
Qed.

Lemma trimEnd_head s c s' :
  trimEnd s = String c s' → ∃ s'', s = String c s''.
Proof.
  destruct s as [| d s]; simpl; [discriminate |].
  destruct (trimEnd s); [destruct (is_white_space d) |];
    intros [= <- <-]; by eexists.
Qed.

(** What [trim] leaves neither starts nor ends with white space. *)
Lemma trim_trimmed s :
  (∀ c s', trim s = String c s' → is_white_space c = false) ∧
  (∀ c, last_char (trim s) = Some c → is_white_space c = false).
Proof.
  unfold trim. split.
  - intros c s' Heq. apply trimEnd_head in Heq as [s'' Heq].
    by eapply is_white_space_trimStart.
  - apply trimEnd_last.
Qed.



(** ** The project handlers and the ownership check *)

Lemma not_owner_self owner : not_owner (Some owner) owner = false.
Proof.
  unfold not_owner. rewrite String.eqb_refl. apply andb_false_r.
Qed.

Lemma check_transition_exn table target current e :
  check_transition table target current = Some e →
  e = InvalidTransition current (default "" target) ∨
  e = includes_failure current.
Proof.
  unfold check_transition. destruct target as [t |]; [| done].
  destruct (truthy t && _); [| done].
  destruct (table !! current) as [allowed |].
  - destruct (includes allowed t); [done |]. intros [= <-]. by left.
  - intros [= <-]. by right.
Qed.

(** What [updateProject] may answer to a caller that names no client. *)
Lemma updateProject_anonymous s id updateData :
  updateProject s id updateData None = (Ok None, s) ∨
  (∃ from to, updateProject s id updateData None
              = (Throw (InvalidTransition from to), s)) ∨
  (∃ st, updateProject s id updateData None = (Throw (includes_failure st), s)) ∨
  updateProject s id updateData None
  = (Throw (Error ("Failed to update project: " +:+ PGRST116)), s) ∨
  (∃ p s', updateProject s id updateData None = (Ok (Some p), s')).
Proof.
  unfold updateProject.
  destruct (projects s !! id) as [existing |] eqn:Hex.
  - rewrite (updateProject_over_existing _ _ _ _ _ _ Hex). simpl.
    destruct (check_transition _ _ _) as [e |] eqn:Hcheck.
    + apply check_transition_exn in Hcheck as [-> | ->]; eauto 8.
    + destruct (patch_is_empty _); eauto 8.
  - rewrite (updateProject_over_missing _ _ _ _ _ Hex). by left.
Qed.

(** What [deleteProject] may answer to a caller that names no client. *)
Lemma deleteProject_anonymous s id :
  deleteProject s id None = (Ok false, s) ∨
  deleteProject s id None = (Throw InvalidState, s) ∨
  (∃ s', deleteProject s id None = (Ok true, s')).
Proof.
  destruct (projects s !! id) as [existing |] eqn:Hex.
  - rewrite (deleteProject_existing _ _ _ _ Hex). simpl.
    destruct (_ =? _)%string; eauto.
  - left. unfold deleteProject. by rewrite (select_single_None _ _ Hex).
Qed.

(** C9.  The handlers of PUT and DELETE call the service without a
    client id.  So the service never throws Unauthorized for them and they
    never answer 403; on a project that exists the service does for them
    what it does for the owner; and a request with the id of a pending
    project soft-deletes it, a request with a patch the service accepts
    updates it, whoever owns the project. *)
Theorem http_handlers_skip_ownership
  (s : Store) (id : string) (updateData : UpdateProjectDTO.t) :
  (fst (updateProject s id updateData None) ≠ Throw (Error UNAUTHORIZED_UPDATE)) ∧
  (fst (deleteProject s id None) ≠ Throw (Error UNAUTHORIZED_DELETE)) ∧
  (sent_code (fst (updateProjectHandler s id updateData)) ≠ Some 403) ∧
  (sent_code (fst (deleteProjectHandler s id)) ≠ Some 403) ∧
  (∀ existing,
     projects s !! id = Some existing →
     updateProject s id updateData None
     = updateProject s id updateData (Some (Project.client_id existing)) ∧
     deleteProject s id None
     = deleteProject s id (Some (Project.client_id existing))) ∧
  (∀ existing,
     projects s !! id = Some existing →
     uuidRegex_test id = true →
     Project.status existing = ProjectStatus.PENDING →
     deleteProjectHandler s id
     = (Sent (mkHttp 200 (mkBody true "Project deleted successfully" None)),
        set_projects (insert id (cancelled existing)) s)) ∧
  (∀ existing p s',
     projects s !! id = Some existing →
     uuidRegex_test id = true →
     negative_budget updateData = false →
     invalid_status updateData = false →
     updateProject s id updateData (Some (Project.client_id existing))
     = (Ok (Some p), s') →
     updateProjectHandler s id updateData
     = (Sent (mkHttp 200 (mkBody true "Project updated successfully" (Some p))), s')).
Proof.
  assert (Hsame : ∀ existing,
     projects s !! id = Some existing →
     updateProject s id updateData None
     = updateProject s id updateData (Some (Project.client_id existing)) ∧
     deleteProject s id None
     = deleteProject s id (Some (Project.client_id existing))).
  { intros existing Hex. split.
    - unfold updateProject.
      rewrite !(updateProject_over_existing _ _ _ _ _ _ Hex).
      by rewrite not_owner_self.
    - rewrite !(deleteProject_existing _ _ _ _ Hex).
      by rewrite not_owner_self. }
  split; [| split; [| split; [| split; [| split; [| split]]]]].
  - destruct (updateProject_anonymous s id updateData)
      as [H | [(from & to & H) | [(st & H) | [H | (p & s' & H)]]]];
      rewrite H; simpl; intros Heq; by inversion Heq.
  - destruct (deleteProject_anonymous s id) as [H | [H | (s' & H)]];
      rewrite H; simpl; intros Heq; by inversion Heq.
  - unfold updateProjectHandler.
    destruct (negb (uuidRegex_test id)); [simpl; discriminate |].
    destruct (negative_budget updateData); [simpl; discriminate |].
    destruct (invalid_status updateData); [simpl; discriminate |].
    destruct (updateProject_anonymous s id updateData)
      as [H | [(from & to & H) | [(st & H) | [H | (p & s' & H)]]]];
      rewrite H; cbv beta iota; try (simpl; discriminate).
    destruct (includes_failure_unclassified st) as [-> ->]. simpl. discriminate.
  - unfold deleteProjectHandler.
    destruct (negb (uuidRegex_test id)); [simpl; discriminate |].
    destruct (deleteProject_anonymous s id) as [H | [H | (s' & H)]];
      rewrite H; simpl; discriminate.
  - done.
  - intros existing Hex Huuid Hst. unfold deleteProjectHandler.
    rewrite Huuid. simpl.
    rewrite (deleteProject_existing _ _ _ _ Hex). simpl.
    by rewrite Hst.
  - intros existing p s' Hex Huuid Hbudget Hstatus Hrun.
    destruct (Hsame existing Hex) as [Hupd _]. rewrite <- Hupd in Hrun.
    unfold updateProjectHandler. rewrite Huuid, Hbudget, Hstatus. simpl.
    by rewrite Hrun.
Qed.

Lemma http_handlers_skip_ownership_witness :
  deleteProjectHandler Sample.store Sample.logo_id
  = (Sent (mkHttp 200 (mkBody true "Project deleted successfully" None)),
     set_projects (insert Sample.logo_id (cancelled Sample.logo)) Sample.store) ∧
  updateProjectHandler Sample.store Sample.logo_id (Sample.set_status "in_progress")
  = (Sent (mkHttp 200
             (mkBody true "Project updated successfully"
                (Some (updated (Sample.set_status "in_progress") Sample.logo)))),
     set_projects
       (insert Sample.logo_id (updated (Sample.set_status "in_progress") Sample.logo))
       Sample.store).
Proof.
  pose proof (http_handlers_skip_ownership Sample.store Sample.logo_id
                (Sample.set_status "in_progress"))
    as (_ & _ & _ & _ & _ & Hdelete & Hupdate).
  split.
  - apply (Hdelete Sample.logo); reflexivity.
  - apply (Hupdate Sample.logo); reflexivity.
Defined.

(** ** The contract controller *)

Section ContractHandlers.

Context {ST C : Type}.
Variable UUID_REGEX_test : string → bool.
Variable create : ST → CreateContractDTO.t → Result C * ST.
Variable update :
  ST → string → UpdateContractDTO.t → option string → Result (option C) * ST.

Lemma length_zero_empty s : (String.length s =? 0)%nat = true ↔ s = "".
Proof. destruct s; simpl; split; done. Qed.

(** A request that is well shaped reaches the service. *)
Lemma createContractHandler_calls_service s d :
  well_shaped d →
  createContractHandler create s d =
    match create s d with
    | (Ok newContract, s') =>
        (Sent (mkHttp HTTP_STATUS.CREATED
                 (buildSuccessResponse newContract "Contract created successfully")),
         s')
    | (Throw error, s') => (createContract_catch error, s')
    end.
Proof.
  intros (ct & fid & cid & chain & amount & Hct & Hfid & Hcid & Hchain & Hamount
          & Htype & Hf & Hc & Htrim & Hpos).
  unfold createContractHandler. rewrite Hct, Hfid, Hcid, Hchain, Hamount.
  assert (Hctne : ct ≠ "").
  { intros ->. unfold CONTRACT_TYPES in Htype.
    rewrite !elem_of_cons, elem_of_nil in Htype.
    destruct Htype as [? | [? | []]]; discriminate. }
  assert (Hchainne : chain ≠ "") by (intros ->; by apply Htrim).
  apply truthy_true in Hctne, Hf, Hc, Hchainne.
  apply includes_elem_of in Htype. apply Z.leb_gt in Hpos.
  assert (Hlen : (String.length (trim chain) =? 0)%nat = false).
  { destruct (String.length (trim chain) =? 0)%nat eqn:Hlen; [| done].
    by apply length_zero_empty in Hlen. }
  rewrite Hctne, Hf, Hc, Hchainne, Htype, Hpos, Hlen. reflexivity.
Qed.

(** What the handler answers when the service throws NotFound. *)
Lemma createContractHandler_not_found s d s' :
  well_shaped d →
  create s d = (Throw (Error FREELANCER_OR_CLIENT_NOT_FOUND), s') →
  createContractHandler create s d
  = (failure HTTP_STATUS.BAD_REQUEST FREELANCER_OR_CLIENT_NOT_FOUND, s').
Proof.
  intros Hshape Hthrow.
  rewrite (createContractHandler_calls_service _ _ Hshape), Hthrow.
  reflexivity.
Qed.

(** C6.  PUT /contracts/:id/status with a well-formed contract id: when
    [escrow_status] is missing, or is none of funded, released and
    disputed, the handler answers 400 and does not call the service (the
    store is as it was); pending in particular is answered 400. *)
Theorem updateContractStatusHandler_rejects
  (s : ST) (id : string) (updateData : UpdateContractDTO.t) :
  UUID_REGEX_test id = true →
  (∀ st, UpdateContractDTO.escrow_status updateData = Some st →
         st ∉ ["funded"; "released"; "disputed"]) →
  (∃ msg, updateContractStatusHandler UUID_REGEX_test update s id updateData
          = (failure 400 msg, s)) ∧
  (UpdateContractDTO.escrow_status updateData = Some "pending" →
   updateContractStatusHandler UUID_REGEX_test update s id updateData
   = (failure 400 "escrow_status must be 'funded', 'released', or 'disputed'", s)).
Proof.
  intros Huuid Hnot.
  unfold updateContractStatusHandler, ACTIVE_ESCROW_STATUSES. rewrite Huuid.
  destruct (UpdateContractDTO.escrow_status updateData) as [st |] eqn:Hst.
  - specialize (Hnot st eq_refl). apply includes_not_elem_of in Hnot.
    rewrite Hnot. split.
    + destruct (truthy st); simpl; by eexists.
    + by intros [= ->].
  - split; [by eexists | done].
Qed.

End ContractHandlers.

Lemma updateContractStatusHandler_rejects_witness :
  (∃ msg,
     updateContractStatusHandler (ST := Store) (C := Contract.t) uuidRegex_test
       (fun s _ _ _ => (Ok None, s)) Sample.store Sample.logo_id
       (UpdateContractDTO.mk (Some "pending") (Some Sample.alice_id))
     = (failure 400 msg, Sample.store)) ∧
  (Some "pending" = Some "pending" →
   updateContractStatusHandler (ST := Store) (C := Contract.t) uuidRegex_test
     (fun s _ _ _ => (Ok None, s)) Sample.store Sample.logo_id
     (UpdateContractDTO.mk (Some "pending") (Some Sample.alice_id))
   = (failure 400 "escrow_status must be 'funded', 'released', or 'disputed'",
      Sample.store)).
Proof.
  apply (updateContractStatusHandler_rejects uuidRegex_test
           (fun s _ _ _ => (Ok None, s)) Sample.store Sample.logo_id
           (UpdateContractDTO.mk (Some "pending") (Some Sample.alice_id))).
  - reflexivity.
  - intros st [= <-]. rewrite !not_elem_of_cons.
    repeat split; try discriminate. apply not_elem_of_nil.
Defined.

(** The service, on a well-shaped request between two different users of
    whom one does not exist, fails with NotFound and leaves the store as
    it was. *)
Lemma createContract_not_found g s d f c :
  well_shaped d →
  CreateContractDTO.freelancer_id d = Some f →
  CreateContractDTO.client_id d = Some c →
  f ≠ c →
  users s !! f = None ∨ users s !! c = None →
  createContract g s d = (Throw (Error FREELANCER_OR_CLIENT_NOT_FOUND), s).
Proof.
  intros (ct & fid & cid & chain & amount & Hct & Hfid & Hcid & Hchain & Hamount
          & Htype & _ & _ & Htrim & Hpos) Hf Hc Hdiff Hmissing.
  rewrite Hfid in Hf. rewrite Hcid in Hc. injection Hf as ->. injection Hc as ->.
  unfold createContract. rewrite Hct, Hfid, Hcid, Hchain, Hamount.
  apply includes_elem_of in Htype. apply Z.leb_gt in Hpos.
  apply truthy_true in Htrim. apply String.eqb_neq in Hdiff.
  rewrite Htype, Hpos, Htrim, Hdiff. simpl.
  destruct Hmissing as [-> | ->]; [done |].
  by destruct (users s !! f).
Qed.

(** C3, as the code has it.  A request that passes the shape checks of
    the handler and names two different users of whom one does not exist:
    the service fails with NotFound, message "Freelancer or client not
    found", and the handler answers with that message under the status
    [HTTP_STATUS.BAD_REQUEST], 400, not 404. *)
Theorem createContractHandler_unknown_user
  (g : Generated) (s : Store) (d : CreateContractDTO.t) (f c : string) :
  well_shaped d →
  CreateContractDTO.freelancer_id d = Some f →
  CreateContractDTO.client_id d = Some c →
  f ≠ c →
  users s !! f = None ∨ users s !! c = None →
  createContract g s d = (Throw (Error FREELANCER_OR_CLIENT_NOT_FOUND), s) ∧
  createContractHandler (createContract g) s d
  = (failure 400 "Freelancer or client not found", s) ∧
  sent_code (fst (createContractHandler (createContract g) s d)) ≠ Some 404.
Proof.
  intros Hshape Hf Hc Hdiff Hmissing.
  pose proof (createContract_not_found g s d f c Hshape Hf Hc Hdiff Hmissing)
    as Hthrow.
  pose proof (createContractHandler_not_found (createContract g) s d s Hshape Hthrow)
    as Hsent.
  split; [done |]. split; [done |].
  rewrite Hsent. simpl. discriminate.
Qed.

Lemma createContractHandler_unknown_user_witness :
  createContract Sample.generated Sample.store Sample.contract_request
  = (Throw (Error FREELANCER_OR_CLIENT_NOT_FOUND), Sample.store) ∧
  createContractHandler (createContract Sample.generated) Sample.store
    Sample.contract_request
  = (failure 400 "Freelancer or client not found", Sample.store) ∧
  sent_code
    (fst (createContractHandler (createContract Sample.generated) Sample.store
            Sample.contract_request))
  ≠ Some 404.
Proof.
  apply (createContractHandler_unknown_user Sample.generated Sample.store
           Sample.contract_request Sample.nobody_id Sample.alice_id).
  - exists "project", Sample.nobody_id, Sample.alice_id, "0x1234567890abcdef", 1000%Z.
    repeat split; try reflexivity; try discriminate.
    apply list_elem_of_here.
  - reflexivity.
  - reflexivity.
  - discriminate.
  - left. reflexivity.
Defined.

(** ** Lists of the standard library under the predicates of stdpp *)

Lemma elem_of_List_filter {A} (f : A → bool) (l : list A) x :
  x ∈ List.filter f l ↔ x ∈ l ∧ f x = true.
Proof. rewrite !list_elem_of_In. apply filter_In. Qed.

Lemma NoDup_List_filter {A} (f : A → bool) (l : list A) :
  NoDup l → NoDup (List.filter f l).
Proof.
  induction 1 as [| x l Hx Hl IH]; simpl; [constructor |].
  destruct (f x); [| done].
  constructor; [| done].
  rewrite elem_of_List_filter. tauto.
Qed.

Lemma elem_of_table_rows {A} (table : gmap string A) (r : A) :
  r ∈ table_rows table ↔ ∃ key, table !! key = Some r.
Proof.
  unfold table_rows. rewrite list_elem_of_fmap. split.
  - intros ([key r'] & -> & Hin). exists key. by apply elem_of_map_to_list.
  - intros (key & Hkey). exists (key, r). split; [done |].
    by apply elem_of_map_to_list.
Qed.

(** ** [getProjectCategories] *)

Lemma Set_add_spec seen x :
  NoDup seen →
  NoDup (Set_add seen x) ∧ ∀ y, y ∈ Set_add seen x ↔ y ∈ seen ∨ y = x.
Proof.
  intros Hnd. unfold Set_add. case_bool_decide as Hin.
  - split; [done |]. intros y. split; [tauto |]. intros [? | ->]; done.
  - split.
    + apply NoDup_app. split; [done |]. split; [| apply NoDup_singleton].
      intros y Hy. rewrite list_elem_of_singleton. by intros ->.
    + intros y. by rewrite elem_of_app, list_elem_of_singleton.
Qed.

Lemma fold_Set_add_spec l seen :
  NoDup seen →
  NoDup (fold_left Set_add l seen) ∧
  ∀ y, y ∈ fold_left Set_add l seen ↔ y ∈ seen ∨ y ∈ l.
Proof.
  revert seen. induction l as [| x l IH]; intros seen Hnd; simpl.
  - split; [done |]. intros y. rewrite elem_of_nil. tauto.
  - destruct (Set_add_spec seen x Hnd) as [Hnd' Hin'].
    destruct (IH _ Hnd') as [Hnd'' Hin''].
    split; [done |]. intros y. rewrite Hin'', Hin', elem_of_cons. tauto.
Qed.

(** [new Set] keeps every element once. *)
Lemma new_Set_spec l :
  NoDup (new_Set l) ∧ ∀ y, y ∈ new_Set l ↔ y ∈ l.
Proof.
  destruct (fold_Set_add_spec l [] (NoDup_nil_2)) as [Hnd Hin].
  split; [done |]. intros y. unfold new_Set. rewrite Hin, elem_of_nil. tauto.
Qed.

(** [sort] orders, and only orders. *)
Lemma sort_spec l :
  StronglySorted String.le (sort l) ∧ sort l ≡ₚ l.
Proof.
  unfold sort. split.
  - apply StronglySorted_merge_sort; apply _.
  - apply merge_sort_Permutation.
Qed.

Lemma elem_of_select_category s st c :
  c ∈ select_category_neq_status s st ↔
  ∃ key p, projects s !! key = Some p ∧ Project.status p ≠ st ∧
           Project.category p = c.
Proof.
  unfold select_category_neq_status. rewrite list_elem_of_fmap. split.
  - intros (p & -> & Hp). apply elem_of_List_filter in Hp as [Hp Hst].
    apply elem_of_table_rows in Hp as [key Hkey].
    apply negb_true_iff, String.eqb_neq in Hst. by exists key, p.
  - intros (key & p & Hkey & Hst & <-). exists p. split; [done |].
    apply elem_of_List_filter. split.
    + apply elem_of_table_rows. by exists key.
    + by apply negb_true_iff, String.eqb_neq.
Qed.

(** C8.  [getProjectCategories] returns a list that is sorted in
    ascending order, has no duplicates, and holds exactly the categories
    of the projects whose status is not cancelled. *)
Theorem getProjectCategories_sorted_distinct (s : Store) :
  ∃ categories : list string,
    getProjectCategories s = Ok categories ∧
    StronglySorted String.le categories ∧
    NoDup categories ∧
    ∀ c, c ∈ categories ↔
         ∃ key p, projects s !! key = Some p ∧
                  Project.status p ≠ "cancelled" ∧
                  Project.category p = c.
Proof.
  eexists. split; [reflexivity |].
  set (categories := select_category_neq_status s ProjectStatus.CANCELLED).
  destruct (new_Set_spec categories) as [Hnd Hin].
  destruct (sort_spec (new_Set categories)) as [Hsorted Hperm].
  split; [done |]. split.
  - by rewrite Hperm.
  - intros c. rewrite Hperm, Hin. apply elem_of_select_category.
Qed.

(** ** The pattern operator *)

Lemma list_ascii_of_string_app a b :
  list_ascii_of_string (a +:+ b) = list_ascii_of_string a ++ list_ascii_of_string b.
Proof. induction a as [| c a IH]; simpl; [done |]. by rewrite IH. Qed.

(** A plain text is read as the sequence of its code units. *)
Lemma parse_like_plain (t rest : list ascii) :
  Forall (fun c => like_special c = false) t →
  parse_like (t ++ rest) = (Lit <$> t) ++ parse_like rest.
Proof.
  induction 1 as [| c t Hc Ht IH]; [done |].
  simpl. unfold like_special in Hc.
  apply orb_false_iff in Hc as [Hc Hbs].
  apply orb_false_iff in Hc as [Hc Hus].
  rewrite Hc, Hus, Hbs. by rewrite IH.
Qed.

Lemma like_match_AnySeq p v :
  like_match (AnySeq :: p) v = true ↔
  ∃ before rest, v = before ++ rest ∧ like_match p rest = true.
Proof.
  induction v as [| c v IH].
  - simpl. rewrite orb_false_r. split.
    + intros H. by exists [], [].
    + intros (before & rest & Heq & H).
      symmetry in Heq. apply app_eq_nil in Heq as [-> ->]. done.
  - change (like_match (AnySeq :: p) (c :: v))
      with (like_match p (c :: v) || like_match (AnySeq :: p) v).
    rewrite orb_true_iff, IH. split.
    + intros [H | (before & rest & -> & H)].
      * by exists [], (c :: v).
      * by exists (c :: before), rest.
    + intros (before & rest & Heq & H). destruct before as [| d before].
      * left. simpl in Heq. by subst.
      * right. injection Heq as -> ->. by exists before, rest.
Qed.

Lemma like_match_Lit t p v :
  like_match ((Lit <$> t) ++ p) v = true ↔
  ∃ mid rest, v = mid ++ rest ∧ to_lower <$> mid = to_lower <$> t ∧
              like_match p rest = true.
Proof.
  revert v. induction t as [| c t IH]; intros v.
  - simpl. split.
    + intros H. by exists [], v.
    + intros (mid & rest & -> & Hmid & H).
      apply fmap_nil_inv in Hmid as ->. done.
  - destruct v as [| d v]; simpl.
    + split; [done |]. intros (mid & rest & Heq & Hmid & _).
      symmetry in Heq. apply app_eq_nil in Heq as [-> _]. done.
    + rewrite andb_true_iff, Ascii.eqb_eq, IH. split.
      * intros (Hc & mid & rest & -> & Hmid & H).
        exists (d :: mid), rest. split; [done |]. split; [| done].
        rewrite !fmap_cons. by rewrite Hc, Hmid.
      * intros (mid & rest & Heq & Hmid & H).
        destruct mid as [| e mid]; [done |].
        rewrite !fmap_cons in Hmid. injection Hmid as Hc Hmid.
        injection Heq as -> ->.
        split; [done |]. by exists mid, rest.
Qed.

Lemma like_match_AnySeq_only v : like_match [AnySeq] v = true.
Proof. apply like_match_AnySeq. exists v, []. by rewrite app_nil_r. Qed.

(** For a plain text, the pattern that the service builds around it
    selects the values in which the text occurs, the case of the letters
    ignored. *)
Lemma ilike_plain_text value t :
  plain_text t →
  ilike value ("%" +:+ t +:+ "%") = true ↔ ci_substring t value.
Proof.
  intros Hplain. unfold ilike, ci_substring.
  rewrite !list_ascii_of_string_app.
  change (list_ascii_of_string "%") with ["%"%char].
  change (parse_like (["%"%char] ++ list_ascii_of_string t ++ ["%"%char]))
    with (AnySeq :: parse_like (list_ascii_of_string t ++ ["%"%char])).
  rewrite (parse_like_plain _ _ Hplain).
  change (parse_like ["%"%char]) with [AnySeq].
  rewrite like_match_AnySeq. split.
  - intros (before & rest & Heq & H).
    apply like_match_Lit in H as (mid & after & -> & Hmid & _).
    by exists before, mid, after.
  - intros (before & mid & after & Heq & Hmid).
    exists before, (mid ++ after). split; [done |].
    apply like_match_Lit. exists mid, after.
    split; [done |]. split; [done |]. apply like_match_AnySeq_only.
Qed.

(** ** [getAllProjects] *)

#[global] Instance newest_first_transitive : Transitive newest_first.
Proof. intros x y z. unfold newest_first. lia. Qed.

#[global] Instance newest_first_total : Total newest_first.
Proof. intros x y. unfold newest_first. lia. Qed.

(** The query that [getAllProjects] builds. *)
Lemma getAllProjects_query s filters :
  getAllProjects s filters =
    let page := default 1 (ProjectFilters.page filters) in
    let limit := default 10 (ProjectFilters.limit filters) in
    let offset := ((page - 1) * limit)%Z in
    let r := run_query s
               (mkQuery (where_clauses filters)
                  (Some (offset, (offset + limit - 1)%Z)) (Some false)) in
    match l_error r with
    | Some msg => Throw (Error ("Failed to fetch projects: " +:+ msg))
    | None =>
        Ok (mkProjectPage (with_client <$> default [] (l_data r))
              (default 0%Z (l_count r)))
    end.
Proof.
  unfold getAllProjects, where_clauses.
  destruct filters as [category budget_min budget_max status page limit]. simpl.
  destruct category as [c |]; [destruct (truthy c) |];
    destruct budget_min as [lo |]; destruct budget_max as [hi |];
    (destruct status as [st |]; [destruct (truthy st) |]); reflexivity.
Qed.

Lemma satisfies_app fs gs r :
  satisfies (fs ++ gs) r = satisfies fs r && satisfies gs r.
Proof. unfold satisfies. apply forallb_app. Qed.

Lemma and_iff_both (A B C D : Prop) : (A ↔ B) → (C ↔ D) → (A ∧ C ↔ B ∧ D).
Proof. tauto. Qed.

(** For a plain category filter, the clauses select the projects that
    pass the filters. *)
Lemma where_clauses_passes filters (r : Joined) :
  (∀ c, ProjectFilters.category filters = Some c → plain_text c) →
  satisfies (where_clauses filters) r = true ↔ passes filters r.1.
Proof.
  intros Hplain. unfold where_clauses, passes.
  rewrite !satisfies_app, !andb_true_iff.
  apply and_iff_both; [| apply and_iff_both; [| apply and_iff_both]].
  - destruct (ProjectFilters.category filters) as [c |]; [| done].
    specialize (Hplain c eq_refl).
    destruct (truthy c) eqn:Hc; simpl.
    + rewrite andb_true_r, (ilike_plain_text _ _ Hplain). split.
      * by intros H c' [= <-].
      * intros H. by apply H.
    + apply negb_false_iff, String.eqb_eq in Hc. subst c. split; [| done].
      intros _ c' [= <-]. exists [], [], (list_ascii_of_string (Project.category r.1)).
      done.
  - destruct (ProjectFilters.budget_min filters) as [b |]; simpl; [| done].
    rewrite andb_true_r, Z.leb_le. split.
    + by intros H b' [= <-].
    + intros H. by apply H.
  - destruct (ProjectFilters.budget_max filters) as [b |]; simpl; [| done].
    rewrite andb_true_r, Z.leb_le. split.
    + by intros H b' [= <-].
    + intros H. by apply H.
  - destruct (ProjectFilters.status filters) as [st |]; [| done].
    destruct (truthy st) eqn:Hst; simpl.
    + rewrite andb_true_r, String.eqb_eq. apply truthy_true in Hst. split.
      * by intros H st' [= <-] _.
      * intros H. by apply H.
    + apply negb_false_iff, String.eqb_eq in Hst. subst st. split; [| done].
      by intros _ st' [= <-] ?.
Qed.

Lemma elem_of_join_users s p u :
  (p, u) ∈ join_users s ↔
  (∃ key, projects s !! key = Some p) ∧ users s !! Project.client_id p = Some u.
Proof.
  unfold join_users. rewrite list_elem_of_omap. split.
  - intros (p' & Hp' & Heq).
    destruct (users s !! Project.client_id p') as [u' |] eqn:Hu; [| done].
    simpl in Heq. injection Heq as -> ->.
    split; [| done]. by apply elem_of_table_rows.
  - intros [Hp Hu]. exists p. split; [by apply elem_of_table_rows |].
    by rewrite Hu.
Qed.

Lemma fst_by_id (l : list (string * Project.t)) :
  Forall (fun kp => Project.id kp.2 = kp.1) l →
  l.*1 = Project.id <$> l.*2.
Proof.
  induction 1 as [| [k p] l Hkp Hl IH]; [done |].
  rewrite !fmap_cons. f_equal; [symmetry; exact Hkp | exact IH].
Qed.

(** Rows stored under their own ids are pairwise different. *)
Lemma NoDup_table_rows (table : gmap string Project.t) :
  (∀ key p, table !! key = Some p → Project.id p = key) →
  NoDup (table_rows table).
Proof.
  intros Hpk. unfold table_rows.
  apply (NoDup_fmap_1 Project.id).
  rewrite <- fst_by_id.
  - apply NoDup_fst_map_to_list.
  - apply Forall_forall. intros [k p] Hin. simpl.
    apply Hpk. by apply elem_of_map_to_list.
Qed.

Lemma NoDup_omap_pair {A B} (g : A → option B) (l : list A) :
  NoDup l → NoDup (omap (fun x => pair x <$> g x) l).
Proof.
  induction 1 as [| x l Hx Hl IH]; simpl; [constructor |].
  destruct (g x) as [y |]; simpl; [| done].
  constructor; [| done].
  rewrite list_elem_of_omap. intros (x' & Hx' & Heq).
  destruct (g x'); simpl in Heq; [| done].
  injection Heq as -> ->. done.
Qed.

Lemma NoDup_join_users s : consistent s → NoDup (join_users s).
Proof.
  intros [Hpk _]. unfold join_users.
  apply NoDup_omap_pair. by apply NoDup_table_rows.
Qed.

Lemma stored_under_id s p :
  consistent s →
  (∃ key, projects s !! key = Some p) ↔ projects s !! Project.id p = Some p.
Proof.
  intros [Hpk _]. split; [| by eexists].
  intros [key Hkey]. by rewrite (Hpk _ _ Hkey).
Qed.

(** The range that the service asks for, cut out of the ordered rows. *)
Lemma run_query_page s fs page limit :
  let offset := ((page - 1) * limit)%Z in
  let rows := merge_sort newest_first (List.filter (satisfies fs) (join_users s)) in
  (1 ≤ page)%Z → (1 ≤ limit)%Z →
  (offset ≤ Z.of_nat (length rows))%Z →
  run_query s (mkQuery fs (Some (offset, (offset + limit - 1)%Z)) (Some false))
  = mkPgList (Some (take (Z.to_nat limit) (drop (Z.to_nat offset) rows))) None
      (Some (Z.of_nat (length rows))).
Proof.
  intros offset rows Hpage Hlimit Hrange. unfold run_query. simpl.
  fold rows.
  replace (offset + limit - 1 - offset + 1)%Z with limit by lia.
  assert (Hoff : (0 ≤ offset)%Z) by (unfold offset; nia).
  assert (Hlen : (0 ≤ limit)%Z) by lia.
  apply Z.ltb_ge in Hoff, Hlen, Hrange. by rewrite Hoff, Hlen, Hrange.
Qed.

(** A page that starts beyond the rows counted is refused. *)
Lemma run_query_beyond s fs page limit :
  let offset := ((page - 1) * limit)%Z in
  let rows := merge_sort newest_first (List.filter (satisfies fs) (join_users s)) in
  (1 ≤ page)%Z → (1 ≤ limit)%Z →
  (Z.of_nat (length rows) < offset)%Z →
  run_query s (mkQuery fs (Some (offset, (offset + limit - 1)%Z)) (Some false))
  = mkPgList None (Some RANGE_ERROR) None.
Proof.
  intros offset rows Hpage Hlimit Hrange. unfold run_query. simpl.
  fold rows. apply Z.ltb_lt in Hrange. rewrite Hrange.
  by rewrite !orb_true_r.
Qed.

(** C7, as the code has it.  Over a store that keeps its keys, for a
    category filter that is a plain text, a page from 1 on and a limit
    from 1 on: the projects that pass the filters (the category filter
    occurs in the category, case ignored; the budget lies between
    budget_min and budget_max, both included; the status is the one asked
    for) form a listing without repetitions, newest first; when the
    offset (page − 1)·limit does not lie beyond the listing,
    [getAllProjects] returns, of that listing, the [limit] rows from the
    offset on, each with its client, and the length of the whole listing
    as total.  Page and limit are 1 and 10 when the filters do not give
    them. *)
Theorem getAllProjects_listing (s : Store) (filters : ProjectFilters.t) :
  let page := default 1%Z (ProjectFilters.page filters) in
  let limit := default 10%Z (ProjectFilters.limit filters) in
  consistent s →
  (∀ c, ProjectFilters.category filters = Some c → plain_text c) →
  (1 ≤ page)%Z →
  (1 ≤ limit)%Z →
  ∃ listing : list Joined,
    NoDup listing ∧
    (∀ p u, (p, u) ∈ listing ↔
            projects s !! Project.id p = Some p ∧
            users s !! Project.client_id p = Some u ∧
            passes filters p) ∧
    (∀ p, projects s !! Project.id p = Some p → passes filters p →
          p ∈ listing.*1) ∧
    StronglySorted newest_first listing ∧
    (((page - 1) * limit ≤ Z.of_nat (length listing))%Z →
     getAllProjects s filters
     = Ok (mkProjectPage
             (with_client <$>
                take (Z.to_nat limit)
                  (drop (Z.to_nat ((page - 1) * limit)) listing))
             (Z.of_nat (length listing)))).
Proof.
  intros page limit Hcons Hplain Hpage Hlimit.
  set (listing := merge_sort newest_first
                    (List.filter (satisfies (where_clauses filters)) (join_users s))).
  assert (Hin : ∀ p u, (p, u) ∈ listing ↔
            projects s !! Project.id p = Some p ∧
            users s !! Project.client_id p = Some u ∧
            passes filters p).
  { intros p u. unfold listing.
    rewrite merge_sort_Permutation, elem_of_List_filter, elem_of_join_users.
    rewrite (where_clauses_passes filters (p, u) Hplain).
    rewrite (stored_under_id s p Hcons). simpl. tauto. }
  exists listing. split; [| split; [| split; [| split]]].
  - unfold listing. rewrite merge_sort_Permutation.
    by apply NoDup_List_filter, NoDup_join_users.
  - done.
  - intros p Hp Hpass.
    destruct Hcons as [_ Hfk]. destruct (Hfk _ _ Hp) as [u Hu].
    apply list_elem_of_fmap. exists (p, u). split; [done |]. by apply Hin.
  - apply StronglySorted_merge_sort; apply _.
  - intros Hrange. rewrite getAllProjects_query. cbv zeta.
    fold page limit.
    by rewrite (run_query_page s _ page limit Hpage Hlimit Hrange).
Qed.

Lemma take_drop_lookup {A} (l : list A) (offset limit i : nat) :
  (i < limit)%nat → take limit (drop offset l) !! i = l !! (offset + i)%nat.
Proof. intros Hi. by rewrite lookup_take_lt, lookup_drop. Qed.

Lemma sample_store_consistent : consistent Sample.store.
Proof.
  split; intros key p Hp; unfold Sample.store in Hp; simpl in Hp;
    rewrite !lookup_insert in Hp; repeat case_decide; simplify_eq;
    try done; by rewrite lookup_empty in Hp.
Qed.

Lemma getAllProjects_listing_witness :
  ∃ listing : list Joined,
    NoDup listing ∧
    (∀ p u, (p, u) ∈ listing ↔
            projects Sample.store !! Project.id p = Some p ∧
            users Sample.store !! Project.client_id p = Some u ∧
            passes Sample.filters p) ∧
    (∀ p, projects Sample.store !! Project.id p = Some p →
          passes Sample.filters p → p ∈ listing.*1) ∧
    StronglySorted newest_first listing ∧
    (((2 - 1) * 1 ≤ Z.of_nat (length listing))%Z →
     getAllProjects Sample.store Sample.filters
     = Ok (mkProjectPage
             (with_client <$>
                take (Z.to_nat 1) (drop (Z.to_nat ((2 - 1) * 1)) listing))
             (Z.of_nat (length listing)))).
Proof.
  apply (getAllProjects_listing Sample.store Sample.filters).
  - apply sample_store_consistent.
  - intros c [= <-]. repeat constructor.
  - simpl. lia.
  - simpl. lia.
Defined.

Lemma not_ci_substring_underscore_design : ¬ ci_substring "_" "design".
Proof.
  intros (before & mid & after & Heq & Hmid).
  destruct mid as [| m [| m' mid]]; [done | | done].
  injection Hmid as Hm.
  assert (Hin : m ∈ list_ascii_of_string "design").
  { rewrite Heq. rewrite !elem_of_app. right; left. apply list_elem_of_here. }
  simpl in Hin. rewrite !elem_of_cons, elem_of_nil in Hin.
  destruct Hin as [-> | [-> | [-> | [-> | [-> | [-> | []]]]]]]; discriminate.
Qed.

(** C7, as the specification states it, fails where the category filter
    is a pattern: the filter "_" lists every project of the sample store,
    the one of category "design" among them, and "_" does not occur in
    "design". *)
Lemma getAllProjects_category_counterexample :
  ∃ pg row,
    getAllProjects Sample.store Sample.any_category = Ok pg ∧
    total pg = 4%Z ∧
    row ∈ page_projects pg ∧
    ProjectWithClient.id row = Sample.logo_id ∧
    ProjectWithClient.category row = "design" ∧
    ¬ ci_substring "_" (ProjectWithClient.category row).
Proof.
  eexists _, (with_client (Sample.logo, Sample.alice)).
  split; [vm_compute; reflexivity |].
  split; [reflexivity |].
  split; [| split; [reflexivity | split; [reflexivity |]]].
  - simpl. rewrite !elem_of_cons. right; right; left. reflexivity.
  - apply not_ci_substring_underscore_design.
Qed.

(** The example of the specification: page 2 with limit 10 is the items
    11 to 20 of the listing. *)
Lemma page_two_of_ten {A} (listing : list A) (i : nat) :
  (i < 10)%nat →
  take (Z.to_nat 10) (drop (Z.to_nat ((2 - 1) * 10)) listing) !! i
  = listing !! (10 + i)%nat.
Proof.
  intros Hi. change (Z.to_nat 10) with 10%nat.
  change (Z.to_nat ((2 - 1) * 10)) with 10%nat.
  by apply take_drop_lookup.
Qed.

(** ** The integrity of the store is kept *)

Lemma consistent_empty : consistent (mkStore ∅ ∅ ∅).
Proof. split; intros key p Hp; simpl in Hp; by rewrite lookup_empty in Hp. Qed.

Lemma consistent_insert s key p :
  consistent s →
  Project.id p = key →
  is_Some (users s !! Project.client_id p) →
  consistent (set_projects (insert key p) s).
Proof.
  intros [Hpk Hfk] Hid Hclient. split; intros key' p' Hp'; simpl in Hp';
    rewrite lookup_insert in Hp'; case_decide; simplify_eq; eauto.
Qed.

Lemma consistent_createProject s g projectData r s' :
  consistent s → createProject s g projectData = (r, s') → consistent s'.
Proof.
  intros Hcons. unfold createProject.
  destruct (users s !! CreateProjectDTO.client_id projectData) as [user |] eqn:Hu.
  - rewrite (select_single_Some _ _ _ Hu). simpl.
    destruct (User.is_freelancer user); [by intros [= _ <-] |].
    unfold insert_project.
    destruct (projects s !! new_id g); simpl; intros [= _ <-]; [done |].
    apply consistent_insert; [done | done |]. simpl. by rewrite Hu.
  - rewrite (select_single_None _ _ Hu). simpl. by intros [= _ <-].
Qed.

Lemma consistent_updateProject s projectId updateData clientId r s' :
  consistent s →
  updateProject s projectId updateData clientId = (r, s') → consistent s'.
Proof.
  intros Hcons. unfold updateProject.
  destruct (projects s !! projectId) as [existing |] eqn:Hex.
  - rewrite (updateProject_over_existing _ _ _ _ _ _ Hex).
    destruct (not_owner _ _); [by intros [= _ <-] |].
    destruct (check_transition _ _ _); [by intros [= _ <-] |].
    destruct (patch_is_empty _); intros [= _ <-]; [done |].
    apply consistent_insert;
      [done | simpl; by apply (proj1 Hcons) | simpl; by eapply (proj2 Hcons)].
  - rewrite (updateProject_over_missing _ _ _ _ _ Hex). by intros [= _ <-].
Qed.

Lemma consistent_deleteProject s projectId clientId r s' :
  consistent s → deleteProject s projectId clientId = (r, s') → consistent s'.
Proof.
  intros Hcons.
  destruct (projects s !! projectId) as [existing |] eqn:Hex.
  - rewrite (deleteProject_existing _ _ _ _ Hex).
    destruct (not_owner _ _); [by intros [= _ <-] |].
    destruct (_ =? _)%string; intros [= _ <-]; [| done].
    apply consistent_insert;
      [done | simpl; by apply (proj1 Hcons) | simpl; by eapply (proj2 Hcons)].
  - unfold deleteProject. rewrite (select_single_None _ _ Hex). simpl.
    by intros [= _ <-].
Qed.

(** ** The operations on the sample store *)

Example trim_sample : trim "  Logo design " = "Logo design".
Proof. reflexivity. Qed.

Example uuidRegex_sample :
  uuidRegex_test Sample.logo_id = true ∧ uuidRegex_test "42" = false.
Proof. split; reflexivity. Qed.

Example ilike_sample :
  ilike "Web Design" "%DES%" = true ∧ ilike "mobile" "%DES%" = false ∧
  ilike "mobile" "%_%" = true.
Proof. repeat split; reflexivity. Qed.

(** The design projects between 300 and 500 are [logo] and, older,
    [old]; the second page of one row is [old]. *)
Example getAllProjects_sample :
  getAllProjects Sample.store Sample.filters
  = Ok (mkProjectPage [with_client (Sample.old, Sample.alice)] 2).
Proof. vm_compute. reflexivity. Qed.

(** There is no fifth page of them. *)
Example getAllProjects_sample_beyond :
  getAllProjects Sample.store
    (ProjectFilters.mk (Some "DES") (Some 300) (Some 500) None (Some 5) (Some 1))
  = Throw (Error "Failed to fetch projects: Requested range not satisfiable").
Proof. vm_compute. reflexivity. Qed.

Example getProjectCategories_sample :
  getProjectCategories Sample.store = Ok ["Web Design"; "design"; "mobile"].
Proof. vm_compute. reflexivity. Qed.

Example updateProject_sample_refused :
  updateProject Sample.store Sample.logo_id (Sample.set_status "completed") None
  = (Throw (InvalidTransition "pending" "completed"), Sample.store).
Proof. reflexivity. Qed.

(** * Further properties of the services *)

(** ** How the operations run *)

Lemma createProject_run s g projectData :
  createProject s g projectData =
    match users s !! CreateProjectDTO.client_id projectData with
    | None => (Throw NotFound, s)
    | Some user =>
        if User.is_freelancer user then (Throw Forbidden, s)
        else
          match projects s !! new_id g with
          | Some _ =>
              (Throw (Error ("Failed to create project: " +:+ PG23505)), s)
          | None =>
              (Ok (Some (created_row g projectData)),
               set_projects (insert (new_id g) (created_row g projectData)) s)
          end
    end.
Proof.
  unfold createProject.
  destruct (users s !! CreateProjectDTO.client_id projectData) as [user |] eqn:Hu.
  - rewrite (select_single_Some _ _ _ Hu). simpl.
    destruct (User.is_freelancer user); [done |].
    unfold insert_project. by destruct (projects s !! new_id g).
  - by rewrite (select_single_None _ _ Hu).
Qed.

Lemma deleteProject_missing s projectId clientId :
  projects s !! projectId = None →
  deleteProject s projectId clientId = (Ok false, s).
Proof.
  intros Hno. unfold deleteProject. by rewrite (select_single_None _ _ Hno).
Qed.

Lemma not_owner_other c owner :
  c ≠ "" → c ≠ owner → not_owner (Some c) owner = true.
Proof.
  intros Hc Hdiff. unfold not_owner.
  apply truthy_true in Hc. rewrite Hc. simpl.
  apply negb_true_iff, String.eqb_neq. congruence.
Qed.

(** ** Ownership *)

(** X1.  A caller that names a client id other than the owner's is
    refused by [updateProject] and by [deleteProject] with Unauthorized,
    before the status is looked at: whatever the patch asks for, whatever
    the status of the project is, and the store is left as it was. *)
Theorem ownership_is_checked_first
  (s : Store) (projectId : string) (existing : Project.t)
  (updateData : UpdateProjectDTO.t) (clientId : string) :
  projects s !! projectId = Some existing →
  clientId ≠ "" →
  clientId ≠ Project.client_id existing →
  updateProject s projectId updateData (Some clientId)
  = (Throw (Error UNAUTHORIZED_UPDATE), s) ∧
  deleteProject s projectId (Some clientId)
  = (Throw (Error UNAUTHORIZED_DELETE), s).
Proof.
  intros Hex Hc Hdiff. split.
  - unfold updateProject.
    rewrite (updateProject_over_existing _ _ _ _ _ _ Hex).
    by rewrite not_owner_other.
  - rewrite (deleteProject_existing _ _ _ _ Hex).
    by rewrite not_owner_other.
Qed.

Lemma ownership_is_checked_first_witness :
  updateProject Sample.store Sample.logo_id (Sample.set_status "completed")
    (Some Sample.mallory_id)
  = (Throw (Error UNAUTHORIZED_UPDATE), Sample.store) ∧
  deleteProject Sample.store Sample.logo_id (Some Sample.mallory_id)
  = (Throw (Error UNAUTHORIZED_DELETE), Sample.store).
Proof.
  apply (ownership_is_checked_first Sample.store Sample.logo_id Sample.logo
           (Sample.set_status "completed") Sample.mallory_id).
  - reflexivity.
  - discriminate.
  - discriminate.
Defined.

(** ** What a call may change *)

(** The three outcomes of [updateProject] as to the store. *)
Lemma updateProject_store s projectId updateData clientId :
  snd (updateProject s projectId updateData clientId) = s ∨
  ∃ existing,
    projects s !! projectId = Some existing ∧
    updateProject s projectId updateData clientId
    = (Ok (Some (updated updateData existing)),
       set_projects (insert projectId (updated updateData existing)) s).
Proof.
  unfold updateProject.
  destruct (projects s !! projectId) as [existing |] eqn:Hex.
  - rewrite (updateProject_over_existing _ _ _ _ _ _ Hex).
    destruct (not_owner _ _); [by left |].
    destruct (check_transition _ _ _); [by left |].
    destruct (patch_is_empty _); [by left |].
    right. by exists existing.
  - rewrite (updateProject_over_missing _ _ _ _ _ Hex). by left.
Qed.

Lemma deleteProject_store s projectId clientId :
  snd (deleteProject s projectId clientId) = s ∧
    fst (deleteProject s projectId clientId) ≠ Ok true ∨
  ∃ existing,
    projects s !! projectId = Some existing ∧
    Project.status existing = ProjectStatus.PENDING ∧
    deleteProject s projectId clientId
    = (Ok true, set_projects (insert projectId (cancelled existing)) s).
Proof.
  destruct (projects s !! projectId) as [existing |] eqn:Hex.
  - rewrite (deleteProject_existing _ _ _ _ Hex).
    destruct (not_owner _ _); [by left |].
    destruct (Project.status existing =? ProjectStatus.PENDING)%string eqn:Hst.
    + right. exists existing. by apply String.eqb_eq in Hst.
    + by left.
  - rewrite (deleteProject_missing _ _ _ Hex). by left.
Qed.

Lemma createProject_store s g projectData :
  snd (createProject s g projectData) = s ∧
    (∀ p, fst (createProject s g projectData) ≠ Ok (Some p)) ∨
  projects s !! new_id g = None ∧
  createProject s g projectData
  = (Ok (Some (created_row g projectData)),
     set_projects (insert (new_id g) (created_row g projectData)) s).
Proof.
  rewrite createProject_run.
  destruct (users s !! _) as [user |]; [| by left].
  destruct (User.is_freelancer user); [by left |].
  destruct (projects s !! new_id g) eqn:Hid; [by left | by right].
Qed.

(** X2.  A call that does not succeed changes nothing: [createProject]
    and [updateProject] leave the store as it was unless they return a
    project, [deleteProject] unless it returns true. *)
Theorem failed_calls_leave_the_store (s : Store) :
  (∀ g projectData r s',
     createProject s g projectData = (r, s') →
     (∀ p, r ≠ Ok (Some p)) → s' = s) ∧
  (∀ projectId updateData clientId r s',
     updateProject s projectId updateData clientId = (r, s') →
     (∀ p, r ≠ Ok (Some p)) → s' = s) ∧
  (∀ projectId clientId r s',
     deleteProject s projectId clientId = (r, s') →
     r ≠ Ok true → s' = s).
Proof.
  split; [| split].
  - intros g projectData r s' Hrun Hfail.
    destruct (createProject_store s g projectData) as [[Hs _] | [_ Hok]].
    + by rewrite Hrun in Hs.
    + rewrite Hrun in Hok. injection Hok as -> _. by destruct (Hfail _ eq_refl).
  - intros projectId updateData clientId r s' Hrun Hfail.
    destruct (updateProject_store s projectId updateData clientId)
      as [Hs | (existing & _ & Hok)].
    + by rewrite Hrun in Hs.
    + rewrite Hrun in Hok. injection Hok as -> _. by destruct (Hfail _ eq_refl).
  - intros projectId clientId r s' Hrun Hfail.
    destruct (deleteProject_store s projectId clientId)
      as [[Hs _] | (existing & _ & _ & Hok)].
    + by rewrite Hrun in Hs.
    + rewrite Hrun in Hok. by injection Hok as -> _.
Qed.

Lemma failed_calls_leave_the_store_witness :
  snd (createProject Sample.store Sample.generated
         (CreateProjectDTO.mk Sample.bob_id "Logo" "A logo" "design" 100))
  = Sample.store ∧
  snd (updateProject Sample.store Sample.logo_id (Sample.set_status "completed") None)
  = Sample.store ∧
  snd (deleteProject Sample.store Sample.site_id None) = Sample.store.
Proof.
  pose proof (failed_calls_leave_the_store Sample.store) as (Hc & Hu & Hd).
  split; [| split].
  - eapply Hc; [apply surjective_pairing |]. intros p. discriminate.
  - eapply Hu; [apply surjective_pairing |]. intros p. discriminate.
  - eapply Hd; [apply surjective_pairing |]. discriminate.
Defined.

(** X3.  [updateProject], with a patch of the fields its type declares,
    and [deleteProject] write under the id they are given and nowhere
    else: the users, the contracts and the project under every other id
    are as they were, whether the call succeeds or not.  [deleteProject],
    whose patch is the literal [{status: cancelled}], leaves the project in
    its place with every column but the status as it was; the status is
    cancelled when it answers [true], and what it was otherwise. *)
Theorem writes_touch_one_row
  (s : Store) (projectId : string) (existing : Project.t)
  (updateData : UpdateProjectDTO.t) (clientId : option string) :
  projects s !! projectId = Some existing →
  (∀ s', s' = snd (updateProject s projectId updateData clientId) ∨
         s' = snd (deleteProject s projectId clientId) →
     users s' = users s ∧
     contracts s' = contracts s ∧
     (∀ other, other ≠ projectId → projects s' !! other = projects s !! other)) ∧
  (∃ p, projects (snd (deleteProject s projectId clientId)) !! projectId = Some p ∧
        Project.id p = Project.id existing ∧
        Project.client_id p = Project.client_id existing ∧
        Project.title p = Project.title existing ∧
        Project.description p = Project.description existing ∧
        Project.category p = Project.category existing ∧
        Project.budget p = Project.budget existing ∧
        Project.created_at p = Project.created_at existing ∧
        (fst (deleteProject s projectId clientId) = Ok true →
         Project.status p = ProjectStatus.CANCELLED) ∧
        (fst (deleteProject s projectId clientId) ≠ Ok true →
         Project.status p = Project.status existing)).
Proof.
  intros Hex.
  assert (Hupd : snd (updateProject s projectId updateData clientId) = s ∨
                 snd (updateProject s projectId updateData clientId)
                 = set_projects (insert projectId (updated updateData existing)) s).
  { destruct (updateProject_store s projectId updateData clientId)
      as [Hs | (existing' & Hex' & Hrun)]; [by left |].
    right. rewrite Hrun. simpl. congruence. }
  assert (Hdel : snd (deleteProject s projectId clientId) = s ∧
                   fst (deleteProject s projectId clientId) ≠ Ok true ∨
                 deleteProject s projectId clientId
                 = (Ok true, set_projects (insert projectId (cancelled existing)) s)).
  { destruct (deleteProject_store s projectId clientId)
      as [Hs | (existing' & Hex' & _ & Hrun)]; [by left |].
    right. rewrite Hrun. congruence. }
  split.
  - intros s' [-> | ->].
    + destruct Hupd as [-> | ->]; [done |].
      simpl. repeat split; try done.
      intros other Hother. by rewrite lookup_insert_ne.
    + destruct Hdel as [[-> _] | ->]; [done |].
      simpl. repeat split; try done.
      intros other Hother. by rewrite lookup_insert_ne.
  - destruct Hdel as [[-> Hnot] | ->].
    + exists existing. repeat split; try done.
    + exists (cancelled existing). simpl. rewrite lookup_insert_eq.
      repeat split; try done.
Qed.

Lemma writes_touch_one_row_witness :
  (∀ s', s' = snd (updateProject Sample.store Sample.logo_id
                     (Sample.set_status "in_progress") None) ∨
         s' = snd (deleteProject Sample.store Sample.logo_id None) →
     users s' = users Sample.store ∧
     contracts s' = contracts Sample.store ∧
     (∀ other, other ≠ Sample.logo_id →
        projects s' !! other = projects Sample.store !! other)) ∧
  (∃ p, projects (snd (deleteProject Sample.store Sample.logo_id None))
          !! Sample.logo_id = Some p ∧
        Project.id p = Project.id Sample.logo ∧
        Project.client_id p = Project.client_id Sample.logo ∧
        Project.title p = Project.title Sample.logo ∧
        Project.description p = Project.description Sample.logo ∧
        Project.category p = Project.category Sample.logo ∧
        Project.budget p = Project.budget Sample.logo ∧
        Project.created_at p = Project.created_at Sample.logo ∧
        (fst (deleteProject Sample.store Sample.logo_id None) = Ok true →
         Project.status p = ProjectStatus.CANCELLED) ∧
        (fst (deleteProject Sample.store Sample.logo_id None) ≠ Ok true →
         Project.status p = Project.status Sample.logo)).
Proof.
  apply (writes_touch_one_row Sample.store Sample.logo_id Sample.logo
           (Sample.set_status "in_progress") None).
  reflexivity.
Defined.

Lemma trim_field_trims o : trim_field o = trim <$> o.
Proof.
  destruct o as [v |]; [| done]. simpl.
  destruct (truthy v) eqn:Hv; [done |].
  apply negb_false_iff, String.eqb_eq in Hv. by subst.
Qed.



(** X5.  To cancel a project there are two ways, and they differ.  On a
    pending project [deleteProject] and [updateProject] with the patch
    that sets the status to cancelled leave the same store.  On a project
    in progress [deleteProject] fails with InvalidState, while the same
    patch through [updateProject] succeeds and cancels it. *)
Theorem two_ways_to_cancel
  (s : Store) (projectId : string) (existing : Project.t)
  (clientId : option string) :
  projects s !! projectId = Some existing →
  not_owner clientId (Project.client_id existing) = false →
  (Project.status existing = "pending" →
     deleteProject s projectId clientId
     = (Ok true, set_projects (insert projectId (cancelled existing)) s) ∧
     updateProject s projectId cancel_patch clientId
     = (Ok (Some (cancelled existing)),
        set_projects (insert projectId (cancelled existing)) s)) ∧
  (Project.status existing = "in_progress" →
     deleteProject s projectId clientId = (Throw InvalidState, s) ∧
     updateProject s projectId cancel_patch clientId
     = (Ok (Some (cancelled existing)),
        set_projects (insert projectId (cancelled existing)) s)).
Proof.
  intros Hex Hown.
  assert (Hupd : ∀ allowed,
            PROJECT_STATUS_TRANSITIONS !! Project.status existing = Some allowed →
            "cancelled" ∈ allowed →
            Project.status existing ≠ "cancelled" →
            updateProject s projectId cancel_patch clientId
            = (Ok (Some (cancelled existing)),
               set_projects (insert projectId (cancelled existing)) s)).
  { intros allowed Hallowed Hin Hdiff. unfold updateProject.
    rewrite (updateProject_over_existing _ _ _ _ _ _ Hex), Hown.
    change (UpdateProjectDTO.status cancel_patch) with (Some "cancelled").
    rewrite check_transition_differs by done.
    apply includes_elem_of in Hin. by rewrite Hallowed, Hin. }
  split; intros Hst.
  - split.
    + by rewrite (deleteProject_existing _ _ _ _ Hex), Hown, Hst.
    + apply (Hupd ["in_progress"; "cancelled"]).
      * rewrite Hst. apply transitions_pending.
      * set_solver.
      * by rewrite Hst.
  - split.
    + by rewrite (deleteProject_existing _ _ _ _ Hex), Hown, Hst.
    + apply (Hupd ["completed"; "cancelled"]).
      * rewrite Hst. apply transitions_in_progress.
      * set_solver.
      * by rewrite Hst.
Qed.

Lemma two_ways_to_cancel_witness :
  deleteProject Sample.store Sample.site_id None
  = (Throw InvalidState, Sample.store) ∧
  updateProject Sample.store Sample.site_id cancel_patch None
  = (Ok (Some (cancelled Sample.site)),
     set_projects (insert Sample.site_id (cancelled Sample.site)) Sample.store).
Proof.
  apply (two_ways_to_cancel Sample.store Sample.site_id Sample.site None);
    reflexivity.
Defined.

(** ** The life of a project *)

(** Every entry of the table leads to a status from which fewer steps are
    left. *)
Lemma transitions_descend current allowed target :
  PROJECT_STATUS_TRANSITIONS !! current = Some allowed →
  target ∈ allowed →
  (steps_left (Some target) < steps_left (Some current))%nat.
Proof.
  intros Hallowed Hin.
  destruct (decide (current ∈ ProjectStatus.values)) as [Hknown | Hunknown].
  - unfold ProjectStatus.values in Hknown.
    rewrite !elem_of_cons, elem_of_nil in Hknown.
    destruct Hknown as [-> | [-> | [-> | [-> | []]]]];
      vm_compute in Hallowed; injection Hallowed as <-;
      rewrite ?elem_of_cons, elem_of_nil in Hin;
      repeat (destruct Hin as [-> | Hin]; [vm_compute; lia |]); done.
  - by rewrite (transitions_unknown _ Hunknown) in Hallowed.
Qed.

(** A patch that [updateProject] accepts keeps the status or follows the
    table. *)
Lemma check_transition_passed target current :
  check_transition PROJECT_STATUS_TRANSITIONS target current = None →
  target ≠ Some "" →
  default current target = current ∨
  (steps_left (Some (default current target)) < steps_left (Some current))%nat.
Proof.
  intros Hcheck Hne. destruct target as [t |]; [| by left]. simpl.
  destruct (decide (t = current)) as [-> | Hdiff]; [by left |].
  right. assert (Ht : t ≠ "") by congruence.
  rewrite check_transition_differs in Hcheck by done.
  destruct (PROJECT_STATUS_TRANSITIONS !! current) as [allowed |] eqn:Hallowed;
    [| done].
  destruct (includes allowed t) eqn:Hin; [| done].
  apply includes_elem_of in Hin. by eapply transitions_descend.
Qed.

(** One call: the status of a project stays, or fewer steps are left. *)
Lemma perform_descends s c projectId :
  status_not_empty c →
  status_of (perform s c) projectId = status_of s projectId ∨
  (steps_left (status_of (perform s c) projectId)
   < steps_left (status_of s projectId))%nat.
Proof.
  intros Hne. destruct c as [g projectData | id updateData clientId | id clientId];
    simpl.
  - destruct (createProject_store s g projectData) as [[-> _] | [Hfree ->]];
      [by left |].
    unfold status_of. simpl.
    destruct (decide (new_id g = projectId)) as [<- | Hother].
    + right. rewrite lookup_insert_eq, Hfree. simpl. lia.
    + left. by rewrite lookup_insert_ne.
  - unfold updateProject.
    destruct (projects s !! id) as [existing |] eqn:Hex.
    + rewrite (updateProject_over_existing _ _ _ _ _ _ Hex).
      destruct (not_owner _ _); [by left |].
      destruct (check_transition _ _ _) eqn:Hcheck; [by left |].
      destruct (patch_is_empty _); [by left |].
      unfold status_of. simpl.
      destruct (decide (id = projectId)) as [<- | Hother].
      * rewrite lookup_insert_eq, Hex. simpl.
        destruct (check_transition_passed _ _ Hcheck Hne) as [-> | Hlt];
          [by left | by right].
      * left. by rewrite lookup_insert_ne.
    + rewrite (updateProject_over_missing _ _ _ _ _ Hex). by left.
  - destruct (deleteProject_store s id clientId)
      as [[-> _] | (existing & Hex & Hst & ->)]; [by left |].
    unfold status_of. simpl.
    destruct (decide (id = projectId)) as [<- | Hother].
    + right. rewrite lookup_insert_eq, Hex. simpl. rewrite Hst.
      vm_compute. lia.
    + left. by rewrite lookup_insert_ne.
Qed.

(** X6.  Over any sequence of calls of [createProject], [updateProject]
    and [deleteProject], none of them with an empty status, the status of
    a project changes at most three times: it is created as pending, and
    moves at most twice more; from in progress at most once more; a
    project in any other status never changes its status again. *)
Theorem status_changes_are_bounded
  (projectId : string) (calls : list ServiceCall) (s : Store) :
  Forall status_not_empty calls →
  (status_changes projectId s calls ≤ steps_left (status_of s projectId))%nat ∧
  (steps_left (status_of s projectId) ≤ 3)%nat.
Proof.
  intros Hcalls. split.
  - revert s. induction Hcalls as [| c calls Hc Hcalls IH]; intros s; simpl.
    + lia.
    + specialize (IH (perform s c)).
      destruct (perform_descends s c projectId Hc) as [Heq | Hlt].
      * rewrite decide_True by done. rewrite <- Heq. lia.
      * case_decide; lia.
  - unfold steps_left. repeat case_match; lia.
Qed.

Lemma status_changes_are_bounded_witness :
  (status_changes Sample.fresh_id Sample.store
    [ CallCreate Sample.generated
        (CreateProjectDTO.mk Sample.alice_id "Shop" "A web shop" "web" 700);
      CallUpdate Sample.fresh_id (Sample.set_status "in_progress") None;
      CallUpdate Sample.fresh_id (Sample.set_status "pending") None;
      CallUpdate Sample.fresh_id (Sample.set_status "completed") None;
      CallDelete Sample.fresh_id None;
      CallUpdate Sample.fresh_id (Sample.set_status "cancelled") None ]
  ≤ steps_left (status_of Sample.store Sample.fresh_id))%nat ∧
  (steps_left (status_of Sample.store Sample.fresh_id) ≤ 3)%nat.
Proof.
  apply status_changes_are_bounded.
  repeat constructor; discriminate.
Defined.

(** X7.  A status that is neither pending nor in progress is final:
    whatever calls of the service follow, none of them with an empty
    status, the project is there and in that same status. *)
Theorem final_status_is_kept
  (projectId st : string) (calls : list ServiceCall) (s : Store) :
  status_of s projectId = Some st →
  st ≠ "pending" →
  st ≠ "in_progress" →
  Forall status_not_empty calls →
  status_of (perform_all s calls) projectId = Some st.
Proof.
  intros Hst Hp Hi Hcalls. revert s Hst.
  induction Hcalls as [| c calls Hc Hcalls IH]; intros s Hst; [done |].
  simpl. apply IH.
  destruct (perform_descends s c projectId Hc) as [Heq | Hlt]; [congruence |].
  exfalso. rewrite Hst in Hlt. simpl in Hlt.
  apply String.eqb_neq in Hp, Hi.
  unfold ProjectStatus.PENDING, ProjectStatus.IN_PROGRESS in Hlt.
  rewrite Hp, Hi in Hlt. lia.
Qed.

Lemma final_status_is_kept_witness :
  status_of
    (perform_all Sample.store
       [ CallUpdate Sample.app_id (Sample.set_status "in_progress") None;
         CallDelete Sample.app_id None;
         CallUpdate Sample.app_id (Sample.set_status "cancelled")
           (Some Sample.alice_id) ])
    Sample.app_id
  = Some "completed".
Proof.
  apply (final_status_is_kept Sample.app_id "completed").
  - reflexivity.
  - discriminate.
  - discriminate.
  - repeat constructor; discriminate.
Defined.

(** Three changes do occur: the bound is met. *)
Example status_changes_sample :
  status_changes Sample.fresh_id Sample.store
    [ CallCreate Sample.generated
        (CreateProjectDTO.mk Sample.alice_id "Shop" "A web shop" "web" 700);
      CallUpdate Sample.fresh_id (Sample.set_status "in_progress") None;
      CallUpdate Sample.fresh_id (Sample.set_status "completed") None ]
  = 3%nat.
Proof. vm_compute. reflexivity. Qed.

(** X8.  An empty status is the one value that escapes the life cycle.
    The handler of PUT validates the status only when it is truthy, and
    the service checks the transition only when it is truthy, but the
    patch still carries it to the store: a request with the status ""
    on a project that exists is answered 200, and the status of the
    project, whatever it was, is "" afterwards. *)
Theorem empty_status_is_let_through
  (s : Store) (id : string) (existing : Project.t)
  (updateData : UpdateProjectDTO.t) :
  projects s !! id = Some existing →
  uuidRegex_test id = true →
  negative_budget updateData = false →
  UpdateProjectDTO.status updateData = Some "" →
  invalid_status updateData = false ∧
  check_transition PROJECT_STATUS_TRANSITIONS (UpdateProjectDTO.status updateData)
    (Project.status existing) = None ∧
  updateProjectHandler s id updateData
  = (Sent (mkHttp 200
             (mkBody true "Project updated successfully"
                (Some (updated updateData existing)))),
     set_projects (insert id (updated updateData existing)) s) ∧
  status_of (snd (updateProjectHandler s id updateData)) id = Some "".
Proof.
  intros Hex Huuid Hbudget Hst.
  assert (Hvalid : invalid_status updateData = false)
    by (unfold invalid_status; by rewrite Hst).
  assert (Hcheck : check_transition PROJECT_STATUS_TRANSITIONS
                     (UpdateProjectDTO.status updateData)
                     (Project.status existing) = None)
    by (by rewrite Hst).
  assert (Hrun : updateProjectHandler s id updateData
    = (Sent (mkHttp 200
               (mkBody true "Project updated successfully"
                  (Some (updated updateData existing)))),
       set_projects (insert id (updated updateData existing)) s)).
  { unfold updateProjectHandler, updateProject.
    rewrite Huuid, Hbudget, Hvalid. simpl.
    rewrite (updateProject_over_existing _ _ _ _ _ _ Hex). simpl.
    rewrite Hcheck.
    by rewrite patch_with_status_not_empty by (rewrite Hst; eauto). }
  split; [done |]. split; [done |]. split; [done |].
  rewrite Hrun. unfold status_of. simpl. rewrite lookup_insert_eq. simpl.
  by rewrite Hst.
Qed.

Lemma empty_status_is_let_through_witness :
  invalid_status (Sample.set_status "") = false ∧
  check_transition PROJECT_STATUS_TRANSITIONS
    (UpdateProjectDTO.status (Sample.set_status "")) (Project.status Sample.app)
  = None ∧
  updateProjectHandler Sample.store Sample.app_id (Sample.set_status "")
  = (Sent (mkHttp 200
             (mkBody true "Project updated successfully"
                (Some (updated (Sample.set_status "") Sample.app)))),
     set_projects (insert Sample.app_id (updated (Sample.set_status "") Sample.app))
       Sample.store) ∧
  status_of (snd (updateProjectHandler Sample.store Sample.app_id
                    (Sample.set_status ""))) Sample.app_id
  = Some "".
Proof.
  apply (empty_status_is_let_through Sample.store Sample.app_id Sample.app
           (Sample.set_status "")); reflexivity.
Defined.

(** ** Reading a project back *)

(** [getProjectById] by the tables. *)
Lemma getProjectById_lookup s projectId :
  getProjectById s projectId =
    Ok (p ← projects s !! projectId;
        u ← users s !! Project.client_id p;
        Some (with_client (p, u))).
Proof.
  unfold getProjectById, joined_eq_id, rows_eq_id.
  destruct (projects s !! projectId) as [p |]; simpl; [| done].
  by destruct (users s !! Project.client_id p).
Qed.

(** X9.  What [createProject] returns can be read back: after a
    successful [createProject], [getProjectById] with the id of the
    project returned yields that project, with the title, the description
    and the category trimmed, the budget as given and the status pending,
    together with the summary of its client. *)
Theorem created_project_is_read_back
  (s s' : Store) (g : Generated) (projectData : CreateProjectDTO.t)
  (p : Project.t) :
  createProject s g projectData = (Ok (Some p), s') →
  ∃ user,
    users s !! CreateProjectDTO.client_id projectData = Some user ∧
    getProjectById s' (Project.id p) = Ok (Some (with_client (p, user))) ∧
    ProjectWithClient.title (with_client (p, user))
    = trim (CreateProjectDTO.title projectData) ∧
    ProjectWithClient.description (with_client (p, user))
    = trim (CreateProjectDTO.description projectData) ∧
    ProjectWithClient.category (with_client (p, user))
    = trim (CreateProjectDTO.category projectData) ∧
    ProjectWithClient.budget (with_client (p, user))
    = CreateProjectDTO.budget projectData ∧
    ProjectWithClient.status (with_client (p, user)) = "pending" ∧
    Client.id (ProjectWithClient.client (with_client (p, user))) = User.id user.
Proof.
  rewrite createProject_run.
  destruct (users s !! _) as [user |] eqn:Hu; [| discriminate].
  destruct (User.is_freelancer user); [discriminate |].
  destruct (projects s !! new_id g); [discriminate |].
  intros [= <- <-]. exists user. split; [done |].
  split; [| done].
  rewrite getProjectById_lookup. simpl.
  rewrite lookup_insert_eq. simpl. by rewrite Hu.
Qed.

Lemma created_project_is_read_back_witness :
  ∃ user,
    users Sample.store !! CreateProjectDTO.client_id Sample.shop = Some user ∧
    getProjectById Sample.store_with_shop (Project.id Sample.shop_row)
    = Ok (Some (with_client (Sample.shop_row, user))) ∧
    ProjectWithClient.title (with_client (Sample.shop_row, user))
    = trim (CreateProjectDTO.title Sample.shop) ∧
    ProjectWithClient.description (with_client (Sample.shop_row, user))
    = trim (CreateProjectDTO.description Sample.shop) ∧
    ProjectWithClient.category (with_client (Sample.shop_row, user))
    = trim (CreateProjectDTO.category Sample.shop) ∧
    ProjectWithClient.budget (with_client (Sample.shop_row, user))
    = CreateProjectDTO.budget Sample.shop ∧
    ProjectWithClient.status (with_client (Sample.shop_row, user)) = "pending" ∧
    Client.id (ProjectWithClient.client (with_client (Sample.shop_row, user)))
    = User.id user.
Proof.
  apply (created_project_is_read_back Sample.store Sample.store_with_shop
           Sample.generated Sample.shop Sample.shop_row).
  reflexivity.
Defined.

(** X10.  A write can be read back, and a soft delete hides nothing from
    [getProjectById]: for a project whose client is a user, the project
    that a successful [updateProject] returns is the one [getProjectById]
    yields afterwards, and after a successful [deleteProject] the project
    is still read, in the status cancelled. *)
Theorem written_project_is_read_back
  (s : Store) (projectId : string) (existing : Project.t) (user : User.t)
  (clientId : option string) :
  projects s !! projectId = Some existing →
  users s !! Project.client_id existing = Some user →
  (∀ updateData p s',
     updateProject s projectId updateData clientId = (Ok (Some p), s') →
     getProjectById s' projectId = Ok (Some (with_client (p, user)))) ∧
  (∀ s',
     deleteProject s projectId clientId = (Ok true, s') →
     getProjectById s' projectId
     = Ok (Some (with_client (cancelled existing, user))) ∧
     ProjectWithClient.status (with_client (cancelled existing, user))
     = "cancelled").
Proof.
  intros Hex Hu. split.
  - intros updateData p s' Hrun. unfold updateProject in Hrun.
    rewrite (updateProject_over_existing _ _ _ _ _ _ Hex) in Hrun.
    destruct (not_owner _ _); [discriminate |].
    destruct (check_transition _ _ _); [discriminate |].
    destruct (patch_is_empty _); [discriminate |].
    injection Hrun as <- <-.
    rewrite getProjectById_lookup. simpl. rewrite lookup_insert_eq. simpl.
    by rewrite Hu.
  - intros s' Hrun.
    rewrite (deleteProject_existing _ _ _ _ Hex) in Hrun.
    destruct (not_owner _ _); [discriminate |].
    destruct (_ =? _)%string; [| discriminate].
    injection Hrun as <-. split; [| done].
    rewrite getProjectById_lookup. simpl. rewrite lookup_insert_eq. simpl.
    by rewrite Hu.
Qed.

Lemma written_project_is_read_back_witness :
  getProjectById
    (set_projects (insert Sample.logo_id (cancelled Sample.logo)) Sample.store)
    Sample.logo_id
  = Ok (Some (with_client (cancelled Sample.logo, Sample.alice))) ∧
  ProjectWithClient.status (with_client (cancelled Sample.logo, Sample.alice))
  = "cancelled".
Proof.
  apply (proj2 (written_project_is_read_back Sample.store Sample.logo_id
                  Sample.logo Sample.alice None eq_refl eq_refl)).
  reflexivity.
Defined.

(** ** The projects of a client *)

#[global] Instance newer_transitive : Transitive newer.
Proof. intros x y z. unfold newer. lia. Qed.

#[global] Instance newer_total : Total newer.
Proof. intros x y. unfold newer. lia. Qed.

(** X11.  [getProjectsByClientId] fails in one way only: when the store
    answers the select with an error, it throws "Failed to fetch client
    projects: " followed by the store's message.  When the store answers,
    over a store that keeps its keys, it returns, without repetition and
    newest first, exactly the projects of that client, in whatever status,
    the cancelled ones included; for a client without projects, or one
    that is unknown, the list is empty. *)
Theorem getProjectsByClientId_listing (s : Store) (clientId : string) :
  (∀ msg, getProjectsByClientId (Some msg) s clientId
          = Throw (Error ("Failed to fetch client projects: " +:+ msg))) ∧
  (∀ fault e, getProjectsByClientId fault s clientId = Throw e →
     ∃ msg, fault = Some msg ∧
            e = Error ("Failed to fetch client projects: " +:+ msg)) ∧
  (consistent s →
   ∃ listing : list Project.t,
     getProjectsByClientId None s clientId = Ok listing ∧
     NoDup listing ∧
     StronglySorted newer listing ∧
     (∀ p, p ∈ listing ↔
           projects s !! Project.id p = Some p ∧ Project.client_id p = clientId) ∧
     ((∀ key p, projects s !! key = Some p → Project.client_id p ≠ clientId) →
      listing = [])).
Proof.
  split; [done |]. split.
  { intros [msg |] e Hthrow; [| done].
    exists msg. split; [done |]. by injection Hthrow as <-. }
  intros Hcons.
  exists (rows_eq_client_id s clientId). split; [reflexivity |].
  assert (Hin : ∀ p, p ∈ rows_eq_client_id s clientId ↔
            projects s !! Project.id p = Some p ∧ Project.client_id p = clientId).
  { intros p. unfold rows_eq_client_id.
    rewrite merge_sort_Permutation, elem_of_List_filter, elem_of_table_rows.
    by rewrite (stored_under_id s p Hcons), String.eqb_eq. }
  split; [| split; [| split]].
  - unfold rows_eq_client_id. rewrite merge_sort_Permutation.
    apply NoDup_List_filter, NoDup_table_rows. by destruct Hcons.
  - apply StronglySorted_merge_sort; apply _.
  - done.
  - intros Hnone.
    destruct (rows_eq_client_id s clientId) as [| p l] eqn:Heq; [done |].
    exfalso. assert (Hp : p ∈ p :: l) by apply list_elem_of_here.
    apply Hin in Hp as [Hp Hc]. by eapply Hnone.
Qed.

Lemma getProjectsByClientId_listing_witness :
  getProjectsByClientId (Some "connection refused") Sample.store Sample.alice_id
  = Throw (Error "Failed to fetch client projects: connection refused") ∧
  ∃ listing : list Project.t,
    getProjectsByClientId None Sample.store Sample.alice_id = Ok listing ∧
    NoDup listing ∧
    StronglySorted newer listing ∧
    (∀ p, p ∈ listing ↔
          projects Sample.store !! Project.id p = Some p ∧
          Project.client_id p = Sample.alice_id) ∧
    ((∀ key p, projects Sample.store !! key = Some p →
               Project.client_id p ≠ Sample.alice_id) →
     listing = []).
Proof.
  pose proof (getProjectsByClientId_listing Sample.store Sample.alice_id)
    as (Hfail & _ & Hlist).
  split.
  - apply (Hfail "connection refused").
  - apply Hlist. apply sample_store_consistent.
Defined.

Example getProjectsByClientId_sample :
  getProjectsByClientId None Sample.store Sample.alice_id
  = Ok [Sample.app; Sample.site; Sample.logo; Sample.old] ∧
  getProjectsByClientId None Sample.store Sample.bob_id = Ok [].
Proof. split; vm_compute; reflexivity. Qed.

(** ** The size of a page *)

Lemma where_clauses_same filters filters' :
  ProjectFilters.category filters = ProjectFilters.category filters' →
  ProjectFilters.budget_min filters = ProjectFilters.budget_min filters' →
  ProjectFilters.budget_max filters = ProjectFilters.budget_max filters' →
  ProjectFilters.status filters = ProjectFilters.status filters' →
  where_clauses filters = where_clauses filters'.
Proof. unfold where_clauses. by intros -> -> -> ->. Qed.

(** What a listing that succeeds has returned. *)
Lemma getAllProjects_returned s filters pg :
  getAllProjects s filters = Ok pg →
  let page := default 1%Z (ProjectFilters.page filters) in
  let limit := default 10%Z (ProjectFilters.limit filters) in
  let offset := ((page - 1) * limit)%Z in
  let rows := merge_sort newest_first
                (List.filter (satisfies (where_clauses filters)) (join_users s)) in
  (0 ≤ offset)%Z ∧ (0 ≤ limit)%Z ∧ (offset ≤ Z.of_nat (length rows))%Z ∧
  pg = mkProjectPage
         (with_client <$> take (Z.to_nat limit) (drop (Z.to_nat offset) rows))
         (Z.of_nat (length rows)).
Proof.
  rewrite getAllProjects_query. cbv zeta. unfold run_query. simpl.
  set (page := default 1%Z (ProjectFilters.page filters)).
  set (limit := default 10%Z (ProjectFilters.limit filters)).
  set (offset := ((page - 1) * limit)%Z).
  set (rows := merge_sort newest_first _).
  replace (offset + limit - 1 - offset + 1)%Z with limit by lia.
  destruct (offset <? 0)%Z eqn:Hoff; [discriminate |].
  destruct (limit <? 0)%Z eqn:Hlim; [discriminate |].
  destruct (Z.of_nat (length rows) <? offset)%Z eqn:Hrange; [discriminate |].
  simpl. intros [= <-].
  apply Z.ltb_ge in Hoff, Hlim, Hrange. done.
Qed.

(** X12.  A listing that succeeds never returns more projects than the
    limit, nor more than the total; its limit and its offset
    (page − 1)·limit are not negative; and, the offset not lying beyond
    the total, the page holds exactly min(limit, total − offset)
    projects: fewer than the limit only on the last page. *)
Theorem getAllProjects_page_size
  (s : Store) (filters : ProjectFilters.t) (pg : ProjectPage) :
  getAllProjects s filters = Ok pg →
  let page := default 1%Z (ProjectFilters.page filters) in
  let limit := default 10%Z (ProjectFilters.limit filters) in
  let offset := ((page - 1) * limit)%Z in
  (0 ≤ limit)%Z ∧
  (0 ≤ offset)%Z ∧
  (Z.of_nat (length (page_projects pg)) ≤ limit)%Z ∧
  (Z.of_nat (length (page_projects pg)) ≤ total pg)%Z ∧
  ((offset ≤ total pg)%Z →
   Z.of_nat (length (page_projects pg)) = Z.min limit (total pg - offset)).
Proof.
  intros Hrun page limit offset.
  destruct (getAllProjects_returned s filters pg Hrun)
    as (Hoff & Hlim & Hrange & ->).
  fold page limit offset in Hoff, Hlim, Hrange |- *. simpl.
  rewrite length_fmap, length_take, length_drop. lia.
Qed.

Lemma getAllProjects_page_size_witness :
  (0 ≤ 1)%Z ∧
  (0 ≤ (2 - 1) * 1)%Z ∧
  (Z.of_nat (length (page_projects
                       (mkProjectPage [with_client (Sample.old, Sample.alice)] 2)))
   ≤ 1)%Z ∧
  (Z.of_nat (length (page_projects
                       (mkProjectPage [with_client (Sample.old, Sample.alice)] 2)))
   ≤ total (mkProjectPage [with_client (Sample.old, Sample.alice)] 2))%Z ∧
  (((2 - 1) * 1 ≤ total (mkProjectPage [with_client (Sample.old, Sample.alice)] 2))%Z →
   Z.of_nat (length (page_projects
                       (mkProjectPage [with_client (Sample.old, Sample.alice)] 2)))
   = Z.min 1 (total (mkProjectPage [with_client (Sample.old, Sample.alice)] 2)
              - (2 - 1) * 1)).
Proof.
  apply (getAllProjects_page_size Sample.store Sample.filters
           (mkProjectPage [with_client (Sample.old, Sample.alice)] 2)).
  vm_compute. reflexivity.
Defined.

(** X13.  The total does not depend on the page: two listings with the
    same category, budget and status filters report the same total,
    whatever their pages and limits. *)
Theorem getAllProjects_total_of_every_page
  (s : Store) (filters filters' : ProjectFilters.t) (pg pg' : ProjectPage) :
  ProjectFilters.category filters = ProjectFilters.category filters' →
  ProjectFilters.budget_min filters = ProjectFilters.budget_min filters' →
  ProjectFilters.budget_max filters = ProjectFilters.budget_max filters' →
  ProjectFilters.status filters = ProjectFilters.status filters' →
  getAllProjects s filters = Ok pg →
  getAllProjects s filters' = Ok pg' →
  total pg = total pg'.
Proof.
  intros Hc Hlo Hhi Hst Hrun Hrun'.
  destruct (getAllProjects_returned s filters pg Hrun) as (_ & _ & _ & ->).
  destruct (getAllProjects_returned s filters' pg' Hrun') as (_ & _ & _ & ->).
  simpl. by rewrite (where_clauses_same filters filters').
Qed.

Lemma getAllProjects_total_of_every_page_witness :
  total (mkProjectPage [with_client (Sample.old, Sample.alice)] 2)
  = total (mkProjectPage [with_client (Sample.logo, Sample.alice)] 2).
Proof.
  apply (getAllProjects_total_of_every_page Sample.store Sample.filters
           (ProjectFilters.mk (Some "DES") (Some 300%Z) (Some 500%Z) None
              (Some 1%Z) (Some 1%Z)));
    try reflexivity; vm_compute; reflexivity.
Defined.

(** ** The categories after a write *)

Lemma elem_of_getProjectCategories s categories c :
  getProjectCategories s = Ok categories →
  c ∈ categories ↔
  ∃ key p, projects s !! key = Some p ∧ Project.status p ≠ "cancelled" ∧
           Project.category p = c.
Proof.
  intros [= <-].
  destruct (new_Set_spec (select_category_neq_status s ProjectStatus.CANCELLED))
    as [_ Hin].
  destruct (sort_spec (new_Set (select_category_neq_status s ProjectStatus.CANCELLED)))
    as [_ Hperm].
  rewrite Hperm, Hin. apply elem_of_select_category.
Qed.

(** X14.  A project that [createProject] has created shows in the
    categories at once, under its trimmed category, and no category that
    was listed is lost. *)
Theorem created_category_is_listed
  (s s' : Store) (g : Generated) (projectData : CreateProjectDTO.t)
  (p : Project.t) (before after : list string) :
  createProject s g projectData = (Ok (Some p), s') →
  getProjectCategories s = Ok before →
  getProjectCategories s' = Ok after →
  trim (CreateProjectDTO.category projectData) ∈ after ∧
  (∀ c, c ∈ before → c ∈ after).
Proof.
  intros Hrun Hbefore Hafter.
  destruct (createProject_store s g projectData) as [[_ Hfail] | [Hfree Hok]].
  { rewrite Hrun in Hfail. by destruct (Hfail p). }
  rewrite Hrun in Hok. injection Hok as -> ->.
  split.
  - apply (elem_of_getProjectCategories _ _ _ Hafter).
    exists (new_id g), (created_row g projectData).
    split; [simpl; apply lookup_insert_eq |]. split; [discriminate | done].
  - intros c Hc.
    apply (elem_of_getProjectCategories _ _ _ Hbefore) in Hc
      as (key & q & Hkey & Hst & Hcat).
    apply (elem_of_getProjectCategories _ _ _ Hafter).
    exists key, q. split; [| done]. simpl.
    rewrite lookup_insert_ne; [done |]. intros <-. congruence.
Qed.

Lemma created_category_is_listed_witness :
  trim (CreateProjectDTO.category Sample.shop) ∈ ["Web Design"; "design"; "mobile"] ∧
  (∀ c, c ∈ ["Web Design"; "design"; "mobile"] →
        c ∈ ["Web Design"; "design"; "mobile"]).
Proof.
  apply (created_category_is_listed Sample.store Sample.store_with_shop
           Sample.generated Sample.shop Sample.shop_row);
    vm_compute; reflexivity.
Defined.

(** X15.  After a successful [deleteProject] the categories are the ones
    of the other projects that are not cancelled: the category of the
    deleted project is listed only if another such project has it. *)
Theorem deleted_category_is_dropped
  (s s' : Store) (projectId : string) (clientId : option string)
  (after : list string) :
  deleteProject s projectId clientId = (Ok true, s') →
  getProjectCategories s' = Ok after →
  ∀ c, c ∈ after ↔
       ∃ key p, key ≠ projectId ∧ projects s !! key = Some p ∧
                Project.status p ≠ "cancelled" ∧ Project.category p = c.
Proof.
  intros Hrun Hafter c.
  destruct (deleteProject_store s projectId clientId)
    as [[_ Hfail] | (existing & Hex & Hst & Hok)].
  { by rewrite Hrun in Hfail. }
  rewrite Hrun in Hok. injection Hok as ->.
  rewrite (elem_of_getProjectCategories _ _ _ Hafter). simpl. split.
  - intros (key & p & Hkey & Hp & Hcat).
    destruct (decide (key = projectId)) as [-> | Hother].
    + rewrite lookup_insert_eq in Hkey. injection Hkey as <-. done.
    + rewrite lookup_insert_ne in Hkey by done. by exists key, p.
  - intros (key & p & Hother & Hkey & Hp & Hcat).
    exists key, p. by rewrite lookup_insert_ne.
Qed.

Lemma deleted_category_is_dropped_witness :
  "design" ∈ ["Web Design"; "design"; "mobile"] ↔
  ∃ key p, key ≠ Sample.logo_id ∧ projects Sample.store !! key = Some p ∧
           Project.status p ≠ "cancelled" ∧ Project.category p = "design".
Proof.
  apply (deleted_category_is_dropped Sample.store
           (set_projects (insert Sample.logo_id (cancelled Sample.logo)) Sample.store)
           Sample.logo_id None);
    vm_compute; reflexivity.
Defined.

(** ** Writing the same thing again *)

Lemma updated_twice updateData p :
  updated updateData (updated updateData p) = updated updateData p.
Proof.
  unfold updated, apply_patch. simpl.
  destruct (trim_field (UpdateProjectDTO.title updateData)),
    (trim_field (UpdateProjectDTO.description updateData)),
    (trim_field (UpdateProjectDTO.category updateData)),
    (UpdateProjectDTO.budget updateData),
    (UpdateProjectDTO.status updateData); reflexivity.
Qed.

Lemma set_projects_insert_twice s key p :
  set_projects (insert key p) (set_projects (insert key p) s)
  = set_projects (insert key p) s.
Proof. unfold set_projects. simpl. by rewrite insert_insert_eq. Qed.

Lemma check_transition_after table updateData current :
  check_transition table (UpdateProjectDTO.status updateData)
    (default current (UpdateProjectDTO.status updateData)) = None.
Proof.
  destruct (UpdateProjectDTO.status updateData) as [t |]; [| done].
  apply check_transition_same.
Qed.

(** X16.  [updateProject] is idempotent: a patch that has been applied
    with success can be applied again, with the same project returned and
    the store as the first call left it; a transition, once made, is not
    refused when asked for again. *)
Theorem updateProject_twice
  (s s' : Store) (projectId : string) (updateData : UpdateProjectDTO.t)
  (clientId : option string) (p : Project.t) :
  updateProject s projectId updateData clientId = (Ok (Some p), s') →
  updateProject s' projectId updateData clientId = (Ok (Some p), s').
Proof.
  unfold updateProject.
  destruct (projects s !! projectId) as [existing |] eqn:Hex.
  - rewrite (updateProject_over_existing _ _ _ _ _ _ Hex).
    destruct (not_owner _ _) eqn:Hown; [discriminate |].
    destruct (check_transition _ _ _); [discriminate |].
    destruct (patch_is_empty _) eqn:Hempty; [discriminate |].
    intros [= <- <-].
    rewrite (updateProject_over_existing _ _ _ (updated updateData existing))
      by (simpl; apply lookup_insert_eq).
    change (Project.client_id (updated updateData existing))
      with (Project.client_id existing).
    change (Project.status (updated updateData existing))
      with (default (Project.status existing) (UpdateProjectDTO.status updateData)).
    rewrite Hown, check_transition_after, Hempty.
    by rewrite updated_twice, set_projects_insert_twice.
  - rewrite (updateProject_over_missing _ _ _ _ _ Hex). discriminate.
Qed.

Lemma updateProject_twice_witness :
  updateProject
    (set_projects
       (insert Sample.logo_id (updated (Sample.set_status "in_progress") Sample.logo))
       Sample.store)
    Sample.logo_id (Sample.set_status "in_progress") None
  = (Ok (Some (updated (Sample.set_status "in_progress") Sample.logo)),
     set_projects
       (insert Sample.logo_id (updated (Sample.set_status "in_progress") Sample.logo))
       Sample.store).
Proof.
  apply (updateProject_twice Sample.store).
  reflexivity.
Defined.

(** ** [trim] and the stored fields *)

Lemma trimEnd_twice s : trimEnd (trimEnd s) = trimEnd s.
Proof.
  induction s as [| c s IH]; [done |]. simpl.
  destruct (trimEnd s) as [| d t] eqn:Ht.
  - destruct (is_white_space c) eqn:Hc; [done |]. simpl. by rewrite Hc.
  - simpl. simpl in IH. by rewrite IH.
Qed.

(** A string that does not begin with white space is left by [trimStart],
    and [trimEnd] does not make it begin with white space. *)
Lemma trimStart_trimEnd s :
  trimStart s = s → trimStart (trimEnd s) = trimEnd s.
Proof.
  destruct s as [| c s]; [done |]. simpl.
  destruct (is_white_space c) eqn:Hc.
  - intros Heq. exfalso.
    assert (Hlen : (String.length (trimStart s) ≤ String.length s)%nat).
    { clear. induction s as [| d s IH]; simpl; [lia |].
      destruct (is_white_space d); simpl; lia. }
    rewrite Heq in Hlen. simpl in Hlen. lia.
  - intros _. destruct (trimEnd s); simpl; by rewrite Hc.
Qed.

Lemma trimStart_twice s : trimStart (trimStart s) = trimStart s.
Proof.
  induction s as [| c s IH]; [done |]. simpl.
  destruct (is_white_space c) eqn:Hc; [done |]. simpl. by rewrite Hc.
Qed.

(** [trim] is idempotent. *)
Lemma trim_twice s : trim (trim s) = trim s.
Proof.
  unfold trim.
  rewrite (trimStart_trimEnd (trimStart s)) by apply trimStart_twice.
  apply trimEnd_twice.
Qed.

(** X17.  The service stores no string field untrimmed: the project that
    [createProject] creates has its title, description and category as
    [trim] leaves them, and [updateProject] keeps a project so. *)
Theorem stored_fields_are_trimmed (s : Store) :
  (∀ g projectData p s',
     createProject s g projectData = (Ok (Some p), s') → trimmed p) ∧
  (∀ projectId existing updateData clientId p s',
     projects s !! projectId = Some existing →
     trimmed existing →
     updateProject s projectId updateData clientId = (Ok (Some p), s') →
     trimmed p).
Proof.
  split.
  - intros g projectData p s'. rewrite createProject_run.
    destruct (users s !! _) as [user |]; [| discriminate].
    destruct (User.is_freelancer user); [discriminate |].
    destruct (projects s !! new_id g); [discriminate |].
    intros [= <- <-]. unfold trimmed, created_row. simpl.
    by rewrite !trim_twice.
  - intros projectId existing updateData clientId p s' Hex (Ht & Hd & Hc) Hrun.
    unfold updateProject in Hrun.
    rewrite (updateProject_over_existing _ _ _ _ _ _ Hex) in Hrun.
    destruct (not_owner _ _); [discriminate |].
    destruct (check_transition _ _ _); [discriminate |].
    destruct (patch_is_empty _); [discriminate |].
    injection Hrun as <- <-.
    unfold trimmed, updated, apply_patch, prepare_update. simpl.
    rewrite !trim_field_trims.
    destruct (UpdateProjectDTO.title updateData),
      (UpdateProjectDTO.description updateData),
      (UpdateProjectDTO.category updateData); simpl;
      by rewrite ?trim_twice.
Qed.

Lemma stored_fields_are_trimmed_witness :
  trimmed Sample.shop_row ∧
  trimmed (updated (UpdateProjectDTO.mk (Some " New logo ") None None None None)
             Sample.logo).
Proof.
  pose proof (stored_fields_are_trimmed Sample.store) as [Hcreate Hupdate].
  split.
  - apply (Hcreate Sample.generated Sample.shop Sample.shop_row
             Sample.store_with_shop).
    reflexivity.
  - eapply (Hupdate Sample.logo_id Sample.logo
              (UpdateProjectDTO.mk (Some " New logo ") None None None None) None).
    + reflexivity.
    + repeat split.
    + reflexivity.
Defined.

Lemma updated_own_fields p : trimmed p → updated (own_fields p) p = p.
Proof.
  intros (Ht & Hd & Hc). unfold updated, apply_patch, prepare_update, own_fields.
  rewrite !trim_field_trims. simpl. rewrite Ht, Hd, Hc.
  by destruct p.
Qed.

Lemma set_projects_insert_same s key p :
  projects s !! key = Some p → set_projects (insert key p) s = s.
Proof.
  intros Hkey. unfold set_projects. rewrite (insert_id _ _ _ Hkey).
  by destruct s.
Qed.

(** X18.  To send a project its own fields back changes nothing: for a
    project whose string fields are trimmed, as the service stores them,
    [updateProject] with the patch made of its own title, description,
    category, budget and status returns the project as it is and leaves
    the store as it was, in whatever status the project is. *)
Theorem own_fields_change_nothing
  (s : Store) (projectId : string) (existing : Project.t)
  (clientId : option string) :
  projects s !! projectId = Some existing →
  trimmed existing →
  not_owner clientId (Project.client_id existing) = false →
  updateProject s projectId (own_fields existing) clientId
  = (Ok (Some existing), s).
Proof.
  intros Hex Htrim Hown. unfold updateProject.
  rewrite (updateProject_over_existing _ _ _ _ _ _ Hex), Hown.
  change (UpdateProjectDTO.status (own_fields existing))
    with (Some (Project.status existing)).
  rewrite check_transition_same.
  rewrite patch_with_status_not_empty by (simpl; eauto).
  by rewrite (updated_own_fields _ Htrim), (set_projects_insert_same _ _ _ Hex).
Qed.

Lemma own_fields_change_nothing_witness :
  updateProject Sample.store Sample.app_id (own_fields Sample.app) None
  = (Ok (Some Sample.app), Sample.store).
Proof.
  apply (own_fields_change_nothing Sample.store Sample.app_id Sample.app None).
  - reflexivity.
  - repeat split.
  - reflexivity.
Defined.

(** * Further properties of the handlers *)

(** ** The UUID pattern *)

Lemma matches_classes_length classes s :
  matches_classes classes s = true → String.length s = length classes.
Proof.
  revert s. induction classes as [| f classes IH]; intros [| c s]; simpl;
    try done.
  intros [_ H]%andb_true_iff. by rewrite (IH _ H).
Qed.

Lemma matches_classes_get classes s i f :
  matches_classes classes s = true →
  classes !! i = Some f →
  ∃ c, String.get i s = Some c ∧ f c = true.
Proof.
  revert s i. induction classes as [| g classes IH]; intros [| c s] i; simpl;
    try done.
  intros [Hc H]%andb_true_iff Hi. destruct i as [| i]; simpl in *.
  - injection Hi as ->. by exists c.
  - by apply IH.
Qed.

Lemma classes_ignore_case c :
  hex (to_lower c) = hex c ∧
  version_digit (to_lower c) = version_digit c ∧
  variant_digit (to_lower c) = variant_digit c ∧
  dash (to_lower c) = dash c.
Proof. destruct c as [[] [] [] [] [] [] [] []]; repeat split; reflexivity. Qed.

Lemma matches_classes_lower_case classes s :
  Forall (fun f : ascii → bool => ∀ c, f (to_lower c) = f c) classes →
  matches_classes classes (lower_case s) = matches_classes classes s.
Proof.
  intros Hclasses. revert s.
  induction Hclasses as [| f classes Hf Hclasses IH]; intros [| c s]; try done.
  change (lower_case (String c s)) with (String (to_lower c) (lower_case s)).
  simpl. by rewrite Hf, IH.
Qed.

(** X19.  The pattern the project handlers test an id with accepts only
    strings of 36 code units with a dash as the 9th, 14th, 19th and 24th,
    and does not tell upper case from lower case. *)
Theorem uuidRegex_shape (id : string) :
  uuidRegex_test (lower_case id) = uuidRegex_test id ∧
  (uuidRegex_test id = true →
   String.length id = 36%nat ∧
   String.get 8 id = Some "-"%char ∧
   String.get 13 id = Some "-"%char ∧
   String.get 18 id = Some "-"%char ∧
   String.get 23 id = Some "-"%char).
Proof.
  split.
  - apply matches_classes_lower_case. unfold uuidRegex. simpl.
    repeat constructor; intros c; apply classes_ignore_case.
  - intros Hid. split; [by apply matches_classes_length in Hid |].
    assert (Hdash : ∀ i, uuidRegex !! i = Some dash →
                         String.get i id = Some "-"%char).
    { intros i Hi.
      destruct (matches_classes_get _ _ _ _ Hid Hi) as (c & Hget & Hc).
      apply Ascii.eqb_eq in Hc. by subst. }
    repeat split; by apply Hdash.
Qed.

Lemma uuidRegex_shape_witness :
  String.length Sample.logo_id = 36%nat ∧
  String.get 8 Sample.logo_id = Some "-"%char ∧
  String.get 13 Sample.logo_id = Some "-"%char ∧
  String.get 18 Sample.logo_id = Some "-"%char ∧
  String.get 23 Sample.logo_id = Some "-"%char.
Proof.
  apply (proj2 (uuidRegex_shape Sample.logo_id)).
  reflexivity.
Defined.

Example uuidRegex_upper_case :
  uuidRegex_test "550E8400-E29B-41D4-A716-446655440010" = true ∧
  uuidRegex_test "550e8400-e29b-61d4-a716-446655440010" = false ∧
  uuidRegex_test "550e8400e29b41d4a716446655440010" = false.
Proof. repeat split; reflexivity. Qed.

(** ** [createProjectHandler] *)

(** X20.  POST /projects.  A body that lacks one of the five fields, or
    has an empty string for one, is answered 400, and so is a negative
    budget; the service is not called.  Otherwise (a budget of 0 and a
    title of white space are let through) the answer is 404 when the
    client is no user, 403 when it is a freelancer, and else, the id the
    store generates being free, 201 with the project created. *)
Theorem createProjectHandler_outcomes
  (s : Store) (g : Generated) (projectData : CreateProjectBody.t) :
  (truthy_opt (CreateProjectBody.client_id projectData) = false ∨
   truthy_opt (CreateProjectBody.title projectData) = false ∨
   truthy_opt (CreateProjectBody.description projectData) = false ∨
   truthy_opt (CreateProjectBody.category projectData) = false ∨
   CreateProjectBody.budget projectData = None →
   createProjectHandler s g projectData = (failure 400 MISSING_PROJECT_FIELDS, s)) ∧
  (∀ client_id title description category budget,
     projectData = CreateProjectBody.mk (Some client_id) (Some title)
                     (Some description) (Some category) (Some budget) →
     client_id ≠ "" → title ≠ "" → description ≠ "" → category ≠ "" →
     ((budget < 0)%Z →
      createProjectHandler s g projectData = (failure 400 BUDGET_POSITIVE, s)) ∧
     ((0 ≤ budget)%Z →
      users s !! client_id = None →
      createProjectHandler s g projectData = (failure 404 "User not found", s)) ∧
     (∀ user,
        (0 ≤ budget)%Z →
        users s !! client_id = Some user →
        User.is_freelancer user = true →
        createProjectHandler s g projectData
        = (failure 403 "Only clients can create projects", s)) ∧
     (∀ user,
        (0 ≤ budget)%Z →
        users s !! client_id = Some user →
        User.is_freelancer user = false →
        projects s !! new_id g = None →
        let row := created_row g
                     (CreateProjectDTO.mk client_id title description category budget) in
        createProjectHandler s g projectData
        = (Sent (mkHttp 201 (mkBody true "Project created successfully" (Some row))),
           set_projects (insert (new_id g) row) s))).
Proof.
  split.
  - unfold createProjectHandler.
    destruct projectData as [[c |] [t |] [d |] [cat |] [b |]]; simpl;
      intros [H | [H | [H | [H | H]]]]; try done;
      rewrite ?H; simpl; rewrite ?orb_true_r; done.
  - intros client_id title description category budget -> Hc Ht Hd Hcat.
    apply truthy_true in Hc, Ht, Hd, Hcat.
    assert (Hrun : createProjectHandler s g
              (CreateProjectBody.mk (Some client_id) (Some title)
                 (Some description) (Some category) (Some budget)) =
            if (budget <? 0)%Z then (failure 400 BUDGET_POSITIVE, s)
            else
              match createProject s g
                      (CreateProjectDTO.mk client_id title description category
                         budget) with
              | (Ok newProject, s') =>
                  (Sent (mkHttp 201
                           (mkBody true "Project created successfully" newProject)),
                   s')
              | (Throw error, s') => (createProject_catch error, s')
              end).
    { unfold createProjectHandler. simpl. by rewrite Hc, Ht, Hd, Hcat. }
    rewrite Hrun, createProject_run. simpl.
    split; [| split; [| split]].
    + intros Hneg. apply Z.ltb_lt in Hneg. by rewrite Hneg.
    + intros Hpos Hu. apply Z.ltb_ge in Hpos. by rewrite Hpos, Hu.
    + intros user Hpos Hu Hfl. apply Z.ltb_ge in Hpos.
      by rewrite Hpos, Hu, Hfl.
    + intros user Hpos Hu Hfl Hfree. apply Z.ltb_ge in Hpos.
      by rewrite Hpos, Hu, Hfl, Hfree.
Qed.

Lemma createProjectHandler_outcomes_witness :
  createProjectHandler Sample.store Sample.generated
    (CreateProjectBody.mk (Some Sample.alice_id) (Some "") (Some "A logo")
       (Some "design") (Some 100))
  = (failure 400 MISSING_PROJECT_FIELDS, Sample.store) ∧
  createProjectHandler Sample.store Sample.generated Sample.blank_title
  = (Sent (mkHttp 201
             (mkBody true "Project created successfully"
                (Some (Project.mk Sample.fresh_id Sample.alice_id "" "A logo"
                         "design" 0 "pending" 40)))),
     set_projects
       (insert (new_id Sample.generated)
          (Project.mk Sample.fresh_id Sample.alice_id "" "A logo" "design" 0
             "pending" 40))
       Sample.store).
Proof.
  split.
  - apply (proj1 (createProjectHandler_outcomes Sample.store Sample.generated _)).
    right; left. reflexivity.
  - apply (proj2 (proj2 (proj2 (proj2
             (createProjectHandler_outcomes Sample.store Sample.generated
                Sample.blank_title)
             Sample.alice_id "   " "A logo" " design " 0%Z eq_refl
             ltac:(discriminate) ltac:(discriminate) ltac:(discriminate)
             ltac:(discriminate))))
             Sample.alice).
    + lia.
    + reflexivity.
    + reflexivity.
    + reflexivity.
Defined.

(** What the handler of POST answers with 201. *)
Lemma createProjectHandler_created s g projectData r s' :
  createProjectHandler s g projectData = (Sent r, s') →
  code r = 201%Z →
  ∃ createData,
    createProject s g createData = (Ok (payload (body r)), s').
Proof.
  unfold createProjectHandler.
  destruct projectData as [[c |] [t |] [d |] [cat |] [b |]]; simpl;
    try (intros [= <- <-]; discriminate).
  destruct (_ || _); [intros [= <- <-]; discriminate |].
  destruct (b <? 0)%Z; [intros [= <- <-]; discriminate |].
  destruct (createProject s g _) as [[newProject | error] s''] eqn:Hrun.
  - intros [= <- <-] _. by eexists.
  - unfold createProject_catch.
    repeat (destruct (_ =? _)%string); intros [= <- <-]; discriminate.
Qed.

(** X21.  POST, then GET.  When the handler of POST has answered 201,
    the handler of GET, asked for the id of the project in that answer (a
    well-formed one), answers 200 with that same project and the summary
    of its client. *)
Theorem posted_project_is_got
  (s s' : Store) (g : Generated) (projectData : CreateProjectBody.t)
  (r : HttpResponse Project.t) :
  createProjectHandler s g projectData = (Sent r, s') →
  code r = 201%Z →
  uuidRegex_test (new_id g) = true →
  ∃ p user,
    payload (body r) = Some p ∧
    Project.id p = new_id g ∧
    users s' !! Project.client_id p = Some user ∧
    getProjectByIdHandler s' (Project.id p)
    = Sent (mkHttp 200
              (mkBody true "Project retrieved successfully"
                 (Some (with_client (p, user))))).
Proof.
  intros Hpost Hcode Huuid.
  destruct (createProjectHandler_created _ _ _ _ _ Hpost Hcode)
    as (createData & Hrun).
  rewrite createProject_run in Hrun.
  destruct (users s !! _) as [user |] eqn:Hu; [| discriminate].
  destruct (User.is_freelancer user); [discriminate |].
  destruct (projects s !! new_id g); [discriminate |].
  injection Hrun as Hpayload <-.
  exists (created_row g createData), user.
  split; [done |]. split; [done |]. split; [done |].
  unfold getProjectByIdHandler.
  change (Project.id (created_row g createData)) with (new_id g).
  rewrite Huuid, getProjectById_lookup. simpl.
  rewrite lookup_insert_eq. simpl. by rewrite Hu.
Qed.

Lemma posted_project_is_got_witness :
  ∃ p user,
    Some (Project.mk Sample.fresh_id Sample.alice_id "" "A logo" "design" 0
            "pending" 40) = Some p ∧
    Project.id p = Sample.fresh_id ∧
    users
      (set_projects
         (insert Sample.fresh_id
            (Project.mk Sample.fresh_id Sample.alice_id "" "A logo" "design" 0
               "pending" 40))
         Sample.store) !! Project.client_id p = Some user ∧
    getProjectByIdHandler
      (set_projects
         (insert Sample.fresh_id
            (Project.mk Sample.fresh_id Sample.alice_id "" "A logo" "design" 0
               "pending" 40))
         Sample.store) (Project.id p)
    = Sent (mkHttp 200
              (mkBody true "Project retrieved successfully"
                 (Some (with_client (p, user))))).
Proof.
  apply (posted_project_is_got Sample.store _ Sample.generated Sample.blank_title
           (mkHttp 201
              (mkBody true "Project created successfully"
                 (Some (Project.mk Sample.fresh_id Sample.alice_id "" "A logo"
                          "design" 0 "pending" 40))))).
  - reflexivity.
  - reflexivity.
  - reflexivity.
Defined.

(** ** An answer that is no success has changed nothing *)

(** X22.  The three handlers that write leave the store as it was unless
    they answer with success: POST unless it answers 201, PUT and DELETE
    unless they answer 200. *)
Theorem handlers_write_on_success_only
  (s : Store) (g : Generated) (projectData : CreateProjectBody.t)
  (id : string) (updateData : UpdateProjectDTO.t) :
  (snd (createProjectHandler s g projectData) = s ∨
   sent_code (fst (createProjectHandler s g projectData)) = Some 201%Z) ∧
  (snd (updateProjectHandler s id updateData) = s ∨
   sent_code (fst (updateProjectHandler s id updateData)) = Some 200%Z) ∧
  (snd (deleteProjectHandler s id) = s ∨
   sent_code (fst (deleteProjectHandler s id)) = Some 200%Z).
Proof.
  split; [| split].
  - unfold createProjectHandler.
    destruct projectData as [[c |] [t |] [d |] [cat |] [b |]]; simpl;
      try (by left).
    destruct (_ || _); [by left |].
    destruct (b <? 0)%Z; [by left |].
    destruct (createProject_store s g (CreateProjectDTO.mk c t d cat b))
      as [[Hs _] | [_ Hok]].
    + left. destruct (createProject s g _) as [[? | ?] ?]; by simpl in *.
    + right. by rewrite Hok.
  - unfold updateProjectHandler.
    destruct (negb (uuidRegex_test id)); [by left |].
    destruct (negative_budget updateData); [by left |].
    destruct (invalid_status updateData); [by left |].
    destruct (updateProject_store s id updateData None)
      as [Hs | (existing & _ & Hok)].
    + left. destruct (updateProject s id updateData None) as [[[? |] | e] ?];
        simpl in *; try done.
      by repeat case_match.
    + right. by rewrite Hok.
  - unfold deleteProjectHandler.
    destruct (negb (uuidRegex_test id)); [by left |].
    destruct (deleteProject_store s id None)
      as [[Hs _] | (existing & _ & _ & Hok)].
    + left. destruct (deleteProject s id None) as [[[|] | e] ?];
        simpl in *; try done.
      by repeat case_match.
    + right. by rewrite Hok.
Qed.

(** ** The contract handlers, whatever the service *)

(** Whether a request is well shaped can be told. *)
Lemma classic_shape d : well_shaped d ∨ ¬ well_shaped d.
Proof.
  destruct d as [[ct |] [f |] [c |] [chain |] [amount |] pid sid];
    try (right; intros (? & ? & ? & ? & ? & ? & ? & ? & ? & ? & _); simpl in *;
         discriminate).
  destruct (decide (ct ∈ CONTRACT_TYPES)) as [Hct | Hct];
    [| right; intros (? & ? & ? & ? & ? & [= <-] & _ & _ & _ & _ & ? & _); done].
  destruct (decide (f ≠ "")) as [Hf | Hf];
    [| right; intros (? & ? & ? & ? & ? & _ & [= <-] & _ & _ & _ & _ & ? & _); done].
  destruct (decide (c ≠ "")) as [Hc | Hc];
    [| right;
       intros (? & ? & ? & ? & ? & _ & _ & [= <-] & _ & _ & _ & _ & ? & _); done].
  destruct (decide (trim chain ≠ "")) as [Hchain | Hchain];
    [| right;
       intros (? & ? & ? & ? & ? & _ & _ & _ & [= <-] & _ & _ & _ & _ & ? & _);
       done].
  destruct (decide (0 < amount)%Z) as [Hamount | Hamount];
    [| right;
       intros (? & ? & ? & ? & ? & _ & _ & _ & _ & [= <-] & _ & _ & _ & _ & ?);
       done].
  left. exists ct, f, c, chain, amount. done.
Qed.

Section ContractHandlersAnswers.

Context {ST C : Type}.
Variable UUID_REGEX_test : string → bool.
Variable create : ST → CreateContractDTO.t → Result C * ST.
Variable update :
  ST → string → UpdateContractDTO.t → option string → Result (option C) * ST.

Lemma createContract_catch_answers (error : exn) :
  sent_code (createContract_catch (C := C) error) = Some 400%Z ∨
  createContract_catch (C := C) error = Next error.
Proof.
  unfold createContract_catch.
  repeat (destruct (_ : bool); [by left |]). by right.
Qed.

(** A request that is not well shaped is answered before the service is
    called. *)
Lemma createContractHandler_refuses s d :
  ¬ well_shaped d →
  ∃ msg, createContractHandler create s d = (failure 400 msg, s).
Proof.
  intros Hshape. unfold createContractHandler.
  destruct d as [[ct |] [f |] [c |] [chain |] [amount |] pid sid];
    cbn [CreateContractDTO.contract_type CreateContractDTO.freelancer_id
         CreateContractDTO.client_id CreateContractDTO.contract_on_chain_id
         CreateContractDTO.amount_locked];
    try (by eexists).
  destruct (truthy ct) eqn:Hct; [| by eexists].
  destruct (truthy f) eqn:Hf; [| by eexists].
  destruct (truthy c) eqn:Hc; [| by eexists].
  destruct (truthy chain) eqn:Hchain; [| by eexists].
  destruct (includes CONTRACT_TYPES ct) eqn:Htype; [| by eexists].
  destruct (amount <=? 0)%Z eqn:Hamount; [by eexists |].
  destruct (String.length (trim chain) =? 0)%nat eqn:Hlen; [by eexists |].
  exfalso. apply Hshape. exists ct, f, c, chain, amount.
  cbn [CreateContractDTO.contract_type CreateContractDTO.freelancer_id
       CreateContractDTO.client_id CreateContractDTO.contract_on_chain_id
       CreateContractDTO.amount_locked].
  apply truthy_true in Hf, Hc. apply includes_elem_of in Htype.
  apply Z.leb_gt in Hamount.
  repeat split; try done.
  intros Hempty. apply length_zero_empty in Hempty. congruence.
Qed.

(** X23.  POST /contracts answers 201 or 400 and nothing else: whatever
    the contract service returns or throws, the handler sends 201 (when
    the service has returned a contract) or 400, or hands the exception
    to the error middleware; it never answers 404 or 403.  A request that
    is not well shaped is answered 400 without the service, the store as
    it was. *)
Theorem createContractHandler_answers (s : ST) (d : CreateContractDTO.t) :
  ((sent_code (fst (createContractHandler create s d)) = Some 201%Z ∧
    ∃ c, fst (create s d) = Ok c) ∨
   sent_code (fst (createContractHandler create s d)) = Some 400%Z ∨
   (∃ e, fst (createContractHandler create s d) = Next e ∧
         fst (create s d) = Throw e)) ∧
  (¬ well_shaped d →
   ∃ msg, createContractHandler create s d = (failure 400 msg, s)).
Proof.
  split; [| apply createContractHandler_refuses].
  destruct (classic_shape d) as [Hshape | Hshape].
  - rewrite (createContractHandler_calls_service create s d Hshape).
    destruct (create s d) as [[c | e] s'] eqn:Hrun; simpl.
    + left. split; [done |]. by exists c.
    + destruct (createContract_catch_answers e) as [H | H].
      * right; left. done.
      * right; right. exists e. by rewrite H.
  - destruct (createContractHandler_refuses s d Hshape) as [msg ->].
    right; left. done.
Qed.


End ContractHandlersAnswers.

Lemma createContractHandler_answers_witness :
  ∃ msg,
    createContractHandler (createContract Sample.generated) Sample.store
      (CreateContractDTO.mk (Some "project") (Some Sample.bob_id)
         (Some Sample.alice_id) (Some "   ") (Some 1000) (Some Sample.logo_id) None)
    = (failure 400 msg, Sample.store).
Proof.
  apply (proj2 (createContractHandler_answers (createContract Sample.generated)
                  Sample.store
                  (CreateContractDTO.mk (Some "project") (Some Sample.bob_id)
                     (Some Sample.alice_id) (Some "   ") (Some 1000%Z)
                     (Some Sample.logo_id) None))).
  intros (ct & f & c & chain & amount & _ & _ & _ & Hchain & _ & _ & _ & _ & Htrim & _).
  injection Hchain as <-. by apply Htrim.
Defined.
